(** * random-images-daily: the image fitter of [bot.py]

    A shallow embedding of [src/bot.py].  The script downloads a placeholder
    photo, re-encodes it as a JPEG that fits a byte budget
    ([convert_and_compress_to_jpeg]) and posts it ([main]).

    Pillow, requests and the atproto client are libraries the script calls;
    they are interfaces here ([PIL], [World]).  Every call into them is
    recorded in a trace, so the order and the number of the calls are part
    of what a run returns.  Python exceptions are the [Err] side of a sum.
    Python floats are IEEE binary64, computed with [SpecFloat].  The values
    read from the environment are sequences of Unicode code points, and
    [strip] removes what [str.isspace()] accepts. *)

From Stdlib Require Import ZArith List String Ascii Strings.Byte Bool Lia.
From Stdlib Require Import Floats.SpecFloat DecimalString.
Import ListNotations.

Local Open Scope string_scope.
Local Open Scope list_scope.
Local Open Scope Z_scope.

(** ** Python values *)

Definition bytes := list byte.

(** [len(data)] *)
Definition len (data : bytes) : Z := Z.of_nat (List.length data).

(** The exceptions that can cross [bot.py]: the three [RuntimeError]s it
    raises itself, the conversion errors of [int] and [float], and
    whatever a library call raises ([LibraryError], with the class name). *)
Inductive exception :=
| RuntimeError (msg : string)
| OverflowError (msg : string)
| ValueError (msg : string)
| IndexError (msg : string)
| LibraryError (cls msg : string).

Inductive result (A : Type) :=
| Ok (a : A)
| Err (e : exception).
Arguments Ok {A} a.
Arguments Err {A} e.

(** [str(n)] for an int *)
Definition str_of_int (n : Z) : string := NilZero.string_of_int (Z.to_int n).

(** A [str] whose content matters character by character (the values read
    from the environment) is its sequence of Unicode code points.  The texts
    the script only builds and passes on stay [string]s. *)
Definition str := list N.

(** An ASCII literal as a [str]. *)
Definition str_of (s : string) : str := map N_of_ascii (list_ascii_of_string s).

(** Whitespace of [str.strip()]: the characters for which [str.isspace()]
    holds.  Below 128: U+0009-000D, U+001C-001F and the space.  Above:
    U+0085, U+00A0, U+1680, U+2000-200A, U+2028, U+2029, U+202F, U+205F
    and U+3000. *)
Definition is_space (c : N) : bool :=
  ((9 <=? c) && (c <=? 13) || (28 <=? c) && (c <=? 32)
   || (c =? 133) || (c =? 160) || (c =? 5760)
   || (8192 <=? c) && (c <=? 8202)
   || (c =? 8232) || (c =? 8233) || (c =? 8239) || (c =? 8287) || (c =? 12288))%N.

Fixpoint lstrip (s : str) : str :=
  match s with
  | c :: s' => if is_space c then lstrip s' else s
  | [] => []
  end.

Fixpoint rstrip (s : str) : str :=
  match s with
  | c :: s' =>
      match rstrip s' with
      | [] => if is_space c then [] else [c]
      | r => c :: r
      end
  | [] => []
  end.

Definition strip (s : str) : str := rstrip (lstrip s).

(** Truth value of a str: [not s] is [is_empty s]. *)
Definition is_empty (s : str) : bool :=
  match s with [] => true | _ => false end.

(** ** Python floats: IEEE 754 binary64 *)

Module PyFloat.

Definition prec : Z := 53.
Definition emax : Z := 1024.

Definition float := spec_float.

(** [float(n)] as [int * float] does it: correctly rounded, and
    [OverflowError] when the int is out of range. *)
Definition of_int (n : Z) : result float :=
  match binary_normalize prec emax n 0 false with
  | S754_infinity _ => Err (OverflowError "int too large to convert to float")
  | f => Ok f
  end.

Definition mul (x y : float) : float := SFmul prec emax x y.

(** The literal [0.9]: the double nearest to 9/10. *)
Definition lit_0_9 : float := S754_finite false 8106479329266893 (-53).

Definition lit_1_0 : float := S754_finite false 4503599627370496 (-52).

(** [int(x)]: truncation towards zero. *)
Definition to_int (x : float) : result Z :=
  match x with
  | S754_zero _ => Ok 0
  | S754_finite s m e =>
      let a := if 0 <=? e then Z.shiftl (Zpos m) e else Z.shiftr (Zpos m) (- e) in
      Ok (if s then - a else a)
  | S754_infinity _ => Err (OverflowError "cannot convert float infinity to integer")
  | S754_nan => Err (ValueError "cannot convert float NaN to integer")
  end.

(** [n * x] with [n] an int and [x] a float. *)
Definition int_mul (n : Z) (x : float) : result float :=
  match of_int n with
  | Ok f => Ok (mul f x)
  | Err e => Err e
  end.

(** [x ** k] by repeated multiplication from the left. *)
Fixpoint pow (x : float) (k : nat) : float :=
  match k with
  | O => lit_1_0
  | S k' => mul (pow x k') x
  end.

End PyFloat.

(** ** Runs: a trace of library calls and a result *)

Section Effects.

Variable event : Type.

Definition M (A : Type) : Type := (list event * result A)%type.

Definition ret {A} (a : A) : M A := ([], Ok a).

Definition raise {A} (e : exception) : M A := ([], Err e).

Definition bind {A B} (c : M A) (k : A -> M B) : M B :=
  match c with
  | (t, Ok a) => let (t', r) := k a in (t ++ t', r)
  | (t, Err e) => (t, Err e)
  end.

(** A pure step that may raise. *)
Definition lift {A} (r : result A) : M A := ([], r).

(** A library call: one event, and what the library answered. *)
Definition call {A} (ev : event) (r : result A) : M A := ([ev], r).

End Effects.

Arguments ret {event A} a.
Arguments raise {event A} e.
Arguments bind {event A B} c k.
Arguments lift {event A} r.
Arguments call {event A} ev r.

Notation "x <- c ;; k" := (bind c (fun x => k))
  (at level 61, c at next level, right associativity).
Notation "' pat <- c ;; k" := (bind c (fun x => match x with pat => k end))
  (at level 61, pat pattern, c at next level, right associativity).

(** ** Configuration constants (lines 9-21) *)

Definition common_resolutions : list (Z * Z) :=
  [ (1920, 1080); (1280, 720); (1024, 768); (600, 800);
    (800, 600); (800, 800); (1600, 900) ].

Definition PICSUM_BASE : string := "https://picsum.photos".
Definition MAX_BYTES : Z := 1000000.
Definition TARGET_MAX_BYTES : Z := 950000.

(** ** Pillow *)

(** The filters of [Image.Resampling]. *)
Inductive resample := NEAREST | BOX | BILINEAR | HAMMING | BICUBIC | LANCZOS.

Class PIL := {
  Image : Type;
  (** [Image.open(io.BytesIO(b))] *)
  Image_open : bytes -> result Image;
  (** [img.convert(mode)] *)
  Image_convert : Image -> string -> result Image;
  (** [img.size] *)
  Image_size : Image -> Z * Z;
  (** [img.resize(size, resample)] *)
  Image_resize : Image -> Z * Z -> resample -> result Image;
  (** [img.save(out, format=.., quality=.., optimize=.., progressive=..)]
      followed by [out.getvalue()] *)
  Image_save : Image -> string -> Z -> bool -> bool -> result bytes
}.

(** What Pillow documents of [resize]: the result has the requested size. *)
Class PIL_resize_spec (P : PIL) : Prop :=
  resize_size : forall img sz f img',
    Image_resize img sz f = Ok img' -> Image_size img' = sz.

(** ** The environment, requests, the clock and the atproto client *)

Record Response := {
  (** what [resp.raise_for_status()] does *)
  raise_for_status : result unit;
  (** [resp.url] *)
  Response_url : string;
  (** [resp.content] *)
  Response_content : bytes
}.

Class World := {
  (** [os.environ] *)
  environ : string -> option str;
  (** the draw of [random.choice] for a sequence of the given length *)
  randbelow : nat -> nat;
  (** [requests.get(url, timeout=.., allow_redirects=..)] *)
  requests_get : string -> Z -> bool -> result Response;
  (** [datetime.datetime.utcnow().strftime(fmt)] *)
  utcnow_strftime : string -> string;
  (** [Client(base_url)] or [Client()] *)
  Client_new : option str -> result unit;
  (** [client.login(handle, password)] *)
  Client_login : str -> str -> result unit;
  (** [client.send_image(text=.., image=.., image_alt=..)] *)
  Client_send_image : string -> bytes -> string -> result unit
}.

(** ** The calls a run makes *)

Section Bot.

Context {P : PIL} {W : World}.

Inductive event :=
| EvOpen (b : bytes)
| EvConvert (img : Image) (mode : string)
| EvResize (img : Image) (size : Z * Z) (f : resample)
| EvSave (img : Image) (format : string) (quality : Z) (optimize progressive : bool)
| EvGet (url : string) (timeout : Z) (allow_redirects : bool)
| EvClient (base_url : option str)
| EvLogin (handle password : str)
| EvSendImage (text : string) (image : bytes) (image_alt : string)
| EvPrint (line : string).

Definition open (b : bytes) : M event Image :=
  call (EvOpen b) (Image_open b).

Definition convert (img : Image) (mode : string) : M event Image :=
  call (EvConvert img mode) (Image_convert img mode).

Definition resize (img : Image) (size : Z * Z) (f : resample) : M event Image :=
  call (EvResize img size f) (Image_resize img size f).

Definition save (img : Image) (format : string) (quality : Z)
    (optimize progressive : bool) : M event bytes :=
  call (EvSave img format quality optimize progressive)
       (Image_save img format quality optimize progressive).

(** ** [convert_and_compress_to_jpeg] (lines 36-70) *)

(** [img.size != (width, height)] *)
Definition size_differs (sz : Z * Z) (width height : Z) : bool :=
  negb ((fst sz =? width) && (snd sz =? height)).

(** Lines 41-46: open, convert to RGB, resize to the target when the
    size differs. *)
Definition load_rgb (img_bytes : bytes) (width height : Z) : M event Image :=
  img <- open img_bytes ;;
  img <- convert img "RGB" ;;
  if size_differs (Image_size img) width height
  then resize img (width, height) LANCZOS
  else ret img.

(** The body shared by the two [for quality in [...]] loops (lines 49-54
    and 62-67): [Some data] is the [return data] inside the loop, [None]
    is the loop running to its end. *)
Fixpoint quality_loop (img : Image) (qualities : list Z) : M event (option bytes) :=
  match qualities with
  | [] => ret None
  | quality :: rest =>
      data <- save img "JPEG" quality true true ;;
      if len data <=? TARGET_MAX_BYTES
      then ret (Some data)
      else quality_loop img rest
  end.

(** [max(1, int(n * scale))] (lines 59 and 60) *)
Definition scaled (n : Z) (scale : PyFloat.float) : result Z :=
  match PyFloat.int_mul n scale with
  | Ok x =>
      match PyFloat.to_int x with
      | Ok i => Ok (Z.max 1 i)
      | Err e => Err e
      end
  | Err e => Err e
  end.

(** Lines 58-68: [for _ in range(n)], with the variable [scale]. *)
Fixpoint scale_loop (img : Image) (width height : Z)
    (scale : PyFloat.float) (n : nat) : M event (option bytes) :=
  match n with
  | O => ret None
  | S n' =>
      new_w <- lift (scaled width scale) ;;
      new_h <- lift (scaled height scale) ;;
      tmp <- resize img (new_w, new_h) LANCZOS ;;
      r <- quality_loop tmp [80; 75; 70; 65; 60; 55] ;;
      match r with
      | Some data => ret (Some data)
      | None =>
          scale_loop img width height (PyFloat.mul scale PyFloat.lit_0_9) n'
      end
  end.

Definition convert_and_compress_to_jpeg (img_bytes : bytes) (width height : Z)
    : M event bytes :=
  img <- load_rgb img_bytes width height ;;
  r <- quality_loop img [95; 92; 90; 88; 85; 82; 80; 78; 75; 72; 70; 65; 60; 55; 50] ;;
  match r with
  | Some data => ret data
  | None =>
      r <- scale_loop img width height PyFloat.lit_0_9 5 ;;
      match r with
      | Some data => ret data
      | None => raise (RuntimeError "Could not compress image under the size limit.")
      end
  end.

(** ** [download_random_picsum] (lines 24-33) *)

Definition download_random_picsum (width height timeout_s : Z)
    : M event (bytes * string) :=
  let url := (PICSUM_BASE ++ "/" ++ str_of_int width ++ "/" ++ str_of_int height)%string in
  resp <- call (EvGet url timeout_s true) (requests_get url timeout_s true) ;;
  _ <- lift (raise_for_status resp) ;;
  let final_url := resp.(Response_url) in
  ret (resp.(Response_content), final_url).

(** ** [main] (lines 73-99) *)

(** [os.environ.get(name, "")] *)
Definition environ_get (name : string) (default : str) : str :=
  match environ name with
  | Some v => v
  | None => default
  end.

(** [random.choice(seq)]: the element at the index drawn below [len(seq)],
    and [IndexError] on an empty sequence. *)
Definition random_choice {A} (seq : list A) : result A :=
  match nth_error seq (randbelow (List.length seq) mod List.length seq)%nat with
  | Some x => Ok x
  | None => Err (IndexError "Cannot choose from an empty sequence")
  end.

Section Main.

(** [main] calls the fitter by its global name; the body is written over
    whatever that name is bound to. *)
Variable fitter : bytes -> Z -> Z -> M event bytes.

Definition main_body : M event unit :=
  let handle := strip (environ_get "BSKY_HANDLE" (str_of "")) in
  let app_password := strip (environ_get "BSKY_APP_PASSWORD" (str_of "")) in
  let pds := strip (environ_get "BSKY_PDS" (str_of "")) in
  if is_empty handle || is_empty app_password
  then raise (RuntimeError
         "Missing BSKY_HANDLE or BSKY_APP_PASSWORD environment variables.")
  else
    '(width, height) <- lift (random_choice common_resolutions) ;;
    '(raw_bytes, final_url) <- download_random_picsum width height 30 ;;
    jpeg_bytes <- fitter raw_bytes width height ;;
    if len jpeg_bytes >? MAX_BYTES
    then raise (RuntimeError
           ("Image is still too large: " ++ str_of_int (len jpeg_bytes) ++ " bytes")%string)
    else
      _ <- (if negb (is_empty pds)
            then call (EvClient (Some pds)) (Client_new (Some pds))
            else call (EvClient None) (Client_new None)) ;;
      _ <- call (EvLogin handle app_password) (Client_login handle app_password) ;;
      let today_utc := utcnow_strftime "%Y-%m-%d" in
      let text := ("Daily random image " ++ today_utc ++ String "010" ""
                   ++ str_of_int width ++ "x" ++ str_of_int height ++ String "010" ""
                   ++ "Source: " ++ final_url)%string in
      let alt := ("Random photo placeholder at " ++ str_of_int width ++ " by "
                  ++ str_of_int height ++ " resolution.")%string in
      _ <- call (EvSendImage text jpeg_bytes alt) (Client_send_image text jpeg_bytes alt) ;;
      call (EvPrint ("Posted successfully: " ++ str_of_int width ++ " "
                     ++ str_of_int height ++ " " ++ final_url ++ " bytes: "
                     ++ str_of_int (len jpeg_bytes))%string)
           (Ok tt).

End Main.

Definition main : M event unit := main_body convert_and_compress_to_jpeg.

End Bot.

(** ** Measures on a trace *)

Section Traces.

Context {P : PIL}.

Definition is_save (ev : event) : bool :=
  match ev with EvSave _ _ _ _ _ => true | _ => false end.

Definition is_resize (ev : event) : bool :=
  match ev with EvResize _ _ _ => true | _ => false end.

Definition count_saves (t : list event) : nat := List.length (filter is_save t).

Definition count_resizes (t : list event) : nat := List.length (filter is_resize t).

(** The calls made after the first encode. *)
Fixpoint after_first_save (t : list event) : list event :=
  match t with
  | [] => []
  | ev :: t' => if is_save ev then t' else after_first_save t'
  end.

(** The scale-down rounds a run entered: every round starts with one
    resize, and the only resize before the first encode is the one to the
    target size. *)
Definition scale_rounds (t : list event) : nat :=
  count_resizes (after_first_save t).

(** The encode calls of [quality_loop] on [img] for the levels [qs]. *)
Definition saves (img : Image) (qs : list Z) : list event :=
  map (fun q => EvSave img "JPEG" q true true) qs.

(** [img] encodes above the budget at every level of [qs]. *)
Definition oversize (img : Image) (qs : list Z) : Prop :=
  forall q, In q qs ->
    exists d, Image_save img "JPEG" q true true = Ok d /\ TARGET_MAX_BYTES < len d.

(** ** The scale-down fallback in the words of the specification *)

(** Round [k] scales the original target by 0.9^k. *)
Definition spec_round_dims (width height : Z) (k : nat) : result (Z * Z) :=
  match scaled width (PyFloat.pow PyFloat.lit_0_9 k) with
  | Ok new_w =>
      match scaled height (PyFloat.pow PyFloat.lit_0_9 k) with
      | Ok new_h => Ok (new_w, new_h)
      | Err e => Err e
      end
  | Err e => Err e
  end.

(** Round [k]: new dimensions, a resize of the full-resolution raster, the
    shorter ladder. *)
Definition spec_round (img : Image) (width height : Z) (k : nat)
    : M event (option bytes) :=
  dims <- lift (spec_round_dims width height k) ;;
  tmp <- resize img dims LANCZOS ;;
  quality_loop tmp [80; 75; 70; 65; 60; 55].

(** The rounds in order, the first success returned. *)
Fixpoint spec_rounds (img : Image) (width height : Z) (ks : list nat)
    : M event (option bytes) :=
  match ks with
  | [] => ret None
  | k :: ks' =>
      r <- spec_round img width height k ;;
      match r with
      | Some data => ret (Some data)
      | None => spec_rounds img width height ks'
      end
  end.

Definition spec_scale_down (img : Image) (width height : Z) : M event (option bytes) :=
  spec_rounds img width height [1; 2; 3; 4; 5]%nat.

(** [n * 0.9^k] rounded down, in exact arithmetic. *)
Definition scaled_dim (n : Z) (k : nat) : Z :=
  n * 9 ^ Z.of_nat k / 10 ^ Z.of_nat k.

(** [round(n * 0.9^k)] in exact arithmetic, ties to even as [round] does. *)
Definition rounded_dim (n : Z) (k : nat) : Z :=
  let d := 10 ^ Z.of_nat k in
  let q := n * 9 ^ Z.of_nat k / d in
  let r := n * 9 ^ Z.of_nat k mod d in
  if 2 * r <? d then q
  else if d <? 2 * r then q + 1
  else if Z.even q then q else q + 1.

(** [scaled] agrees with the exact value for the round [k] and for every
    [n] below [bound]. *)
Definition scaled_exact_upto (bound : nat) (k : nat) : bool :=
  let scale := PyFloat.pow PyFloat.lit_0_9 k in
  forallb
    (fun n => match scaled n scale with
              | Ok m => m =? Z.max 1 (scaled_dim n k)
              | Err _ => false
              end)
    (map Z.of_nat (seq 0 bound)).

(** The dimensions of the output of a successful fit, with [dim n k] the
    dimension after [k] scale-down rounds: the last call of the run encodes
    a raster of that size and the bytes returned are that encoding. *)
Definition output_dimensions (dim : Z -> nat -> Z)
    (img_bytes : bytes) (width height : Z) : Prop :=
  forall t data,
    convert_and_compress_to_jpeg img_bytes width height = (t, Ok data) ->
    exists img q,
      last t (EvOpen []) = EvSave img "JPEG" q true true /\
      Image_save img "JPEG" q true true = Ok data /\
      (scale_rounds t <= 5)%nat /\
      Image_size img = (dim width (scale_rounds t), dim height (scale_rounds t)).

End Traces.

(** ** A small codec and a small world to run the script on *)

Module Toy.

Record image := {
  size : Z * Z;
  mode : string;
  (** thousandths of a byte per pixel and quality level *)
  detail : Z
}.

Definition mode_of (b : byte) : string :=
  match b with
  | x00 => "L"
  | x01 => "RGB"
  | x02 => "RGBA"
  | _ => "P"
  end.

Definition Z_of_byte (b : byte) : Z := Z.of_N (Byte.to_N b).

(** Four bytes: mode, detail, width, height. *)
Definition open (b : bytes) : result image :=
  match b with
  | [m; d; w; h] =>
      Ok {| size := (Z_of_byte w, Z_of_byte h); mode := mode_of m; detail := Z_of_byte d |}
  | _ => Err (LibraryError "UnidentifiedImageError" "cannot identify image file")
  end.

Definition convert (img : image) (m : string) : result image :=
  Ok {| size := size img; mode := m; detail := detail img |}.

Definition resize (img : image) (sz : Z * Z) (f : resample) : result image :=
  if (0 <? fst sz) && (0 <? snd sz)
  then Ok {| size := sz; mode := mode img; detail := detail img |}
  else Err (ValueError "height and width must be > 0").

(** The payload grows with the area, the quality and the detail. *)
Definition payload (img : image) (quality : Z) : Z :=
  fst (size img) * snd (size img) * quality * detail img / 1000.

(** A two-byte marker and the payload. *)
Definition encode (img : image) (quality : Z) : bytes :=
  xff :: xd8 :: repeat x00 (Z.to_nat (payload img quality)).

Definition encoded_len (img : image) (quality : Z) : Z :=
  2 + Z.max 0 (payload img quality).

Definition save (img : image) (format : string) (quality : Z)
    (optimize progressive : bool) : result bytes :=
  if String.eqb (mode img) "RGB" || String.eqb (mode img) "L"
  then Ok (encode img quality)
  else Err (LibraryError "OSError" "cannot write mode as JPEG").

#[export] Instance pil : PIL := {|
  Image := image;
  Image_open := open;
  Image_convert := convert;
  Image_size := size;
  Image_resize := resize;
  Image_save := save
|}.

(** The photo service answers with a small, plain image. *)
Definition world (env : string -> option str) : World := {|
  environ := env;
  randbelow := fun _ => 2%nat;
  requests_get := fun u _ _ =>
    Ok {| raise_for_status := Ok tt;
          Response_url := "https://fastly.picsum.photos/id/10/1024/768.jpg";
          Response_content := [x01; x00; x08; x08] |};
  utcnow_strftime := fun _ => "2025-01-01";
  Client_new := fun _ => Ok tt;
  Client_login := fun _ _ => Ok tt;
  Client_send_image := fun _ _ _ => Ok tt
|}.

Definition env_full (name : string) : option str :=
  if String.eqb name "BSKY_HANDLE" then Some (str_of "bot.example.org")
  else if String.eqb name "BSKY_APP_PASSWORD" then Some (str_of "abcd-efgh")
  else None.

Definition env_no_password (name : string) : option str :=
  if String.eqb name "BSKY_HANDLE" then Some (str_of "bot.example.org") else None.

(** A plain image, and one that is hard to compress. *)
Definition plain : bytes := [x01; x00; x08; x08].
Definition noisy : bytes := [x02; x19; x10; x10].

(** The noisy image once loaded for a target, and resized in a round. *)
Definition noisy_at (width height : Z) : image :=
  {| size := (width, height); mode := "RGB"; detail := 25 |}.

(** A fitter that ignores the budget. *)
Definition oversized_jpeg : bytes := repeat x00 (Z.to_nat (MAX_BYTES + 1)).

Definition careless_fitter (b : bytes) (width height : Z) : M event bytes :=
  ret oversized_jpeg.

End Toy.

(** ** Further measures: what a call asked for and what it answered *)

Section Calls.

Context {P : PIL}.

(** The calls the fitter may make for a target: an open, a conversion to
    RGB, a Lanczos resize to the target or to dimensions of at least 1, a
    progressive optimised JPEG encode at a quality from 50 to 95. *)
Definition fitter_call (width height : Z) (ev : event) : Prop :=
  match ev with
  | EvOpen _ => True
  | EvConvert _ mode => mode = "RGB"
  | EvResize _ size f =>
      f = LANCZOS /\ (size = (width, height) \/ (1 <= fst size /\ 1 <= snd size))
  | EvSave _ format quality optimize progressive =>
      format = "JPEG" /\ 50 <= quality <= 95 /\ optimize = true /\ progressive = true
  | _ => False
  end.

(** The Pillow call [ev] raised [e]. *)
Definition raised_by (ev : event) (e : exception) : Prop :=
  match ev with
  | EvOpen b => Image_open b = Err e
  | EvConvert img mode => Image_convert img mode = Err e
  | EvResize img size f => Image_resize img size f = Err e
  | EvSave img format quality optimize progressive =>
      Image_save img format quality optimize progressive = Err e
  | _ => False
  end.

(** Round [k] ran to its end: its dimensions and its resize succeeded and
    every level of the shorter ladder encoded above the budget. *)
Definition round_over_budget (img : Image) (width height : Z) (k : nat) : Prop :=
  exists dims tmp,
    spec_round_dims width height k = Ok dims /\
    Image_resize img dims LANCZOS = Ok tmp /\
    oversize tmp [80; 75; 70; 65; 60; 55].

End Calls.

(** ** The strings [main] builds *)

(** Line 29: the URL requested. *)
Definition picsum_url (width height : Z) : string :=
  (PICSUM_BASE ++ "/" ++ str_of_int width ++ "/" ++ str_of_int height)%string.

(** Line 93: the text of the post. *)
Definition post_text (today_utc : string) (width height : Z) (final_url : string)
    : string :=
  ("Daily random image " ++ today_utc ++ String "010" ""
   ++ str_of_int width ++ "x" ++ str_of_int height ++ String "010" ""
   ++ "Source: " ++ final_url)%string.

(** Line 94: the alt text. *)
Definition alt_text (width height : Z) : string :=
  ("Random photo placeholder at " ++ str_of_int width ++ " by "
   ++ str_of_int height ++ " resolution.")%string.

(** Line 99: the line printed. *)
Definition summary_line (width height : Z) (final_url : string) (n : Z) : string :=
  ("Posted successfully: " ++ str_of_int width ++ " " ++ str_of_int height ++ " "
   ++ final_url ++ " bytes: " ++ str_of_int n)%string.

(** A str of whitespace only: every character is one [str.isspace()]
    accepts. *)
Definition blank (s : str) : bool := forallb is_space s.

Section Settings.

Context {W : World}.

(** Lines 74-76: a setting as [main] reads it. *)
Definition setting (name : string) : str := strip (environ_get name (str_of "")).

(** Line 89: the server the client is created for. *)
Definition client_base : option str :=
  if is_empty (setting "BSKY_PDS") then None else Some (setting "BSKY_PDS").

(** Lines 86-99: what [main] does with the bytes the fitter returned. *)
Definition after_fit {P : PIL} (width height : Z) (final_url : string)
    (jpeg_bytes : bytes) : M event unit :=
  if len jpeg_bytes >? MAX_BYTES
  then raise (RuntimeError
         ("Image is still too large: " ++ str_of_int (len jpeg_bytes) ++ " bytes")%string)
  else
    _ <- call (EvClient client_base) (Client_new client_base) ;;
    _ <- call (EvLogin (setting "BSKY_HANDLE") (setting "BSKY_APP_PASSWORD"))
              (Client_login (setting "BSKY_HANDLE") (setting "BSKY_APP_PASSWORD")) ;;
    let text := post_text (utcnow_strftime "%Y-%m-%d") width height final_url in
    let alt := alt_text width height in
    _ <- call (EvSendImage text jpeg_bytes alt) (Client_send_image text jpeg_bytes alt) ;;
    call (EvPrint (summary_line width height final_url (len jpeg_bytes))) (Ok tt).

End Settings.

Definition is_send_image {P : PIL} (ev : event) : bool :=
  match ev with EvSendImage _ _ _ => true | _ => false end.

(** ** More small worlds *)

(** A world whose environment, photo service and login answer as given. *)
Definition toy_world_with (env : string -> option str) (get : result Response)
    (login : result unit) : World := {|
  environ := env;
  randbelow := fun _ => 2%nat;
  requests_get := fun _ _ _ => get;
  utcnow_strftime := fun _ => "2025-01-01";
  Client_new := fun _ => Ok tt;
  Client_login := fun _ _ => login;
  Client_send_image := fun _ _ _ => Ok tt
|}.

Definition toy_response (status : result unit) (body : bytes) : Response :=
  {| raise_for_status := status;
     Response_url := "https://fastly.picsum.photos/id/10/1024/768.jpg";
     Response_content := body |}.

(** A handle made of a no-break space (U+00A0) and a space. *)
Definition toy_env_blank (name : string) : option str :=
  if String.eqb name "BSKY_HANDLE" then Some [160; 32]%N
  else if String.eqb name "BSKY_APP_PASSWORD" then Some (str_of "abcd-efgh")
  else None.


(** An image noisier than [Toy.noisy], and its rasters. *)
Definition toy_noisier : bytes := [x02; x1e; x10; x10].

Definition toy_raster (width height detail : Z) : Toy.image :=
  {| Toy.size := (width, height); Toy.mode := "RGB"; Toy.detail := detail |}.

(** ** The rounds as calls, and a decoder that accepts too much *)

(** The dimensions of round [k] in exact arithmetic: each dimension of the
    original target times 0.9^k, rounded down, and at least 1. *)
Definition round_dims (width height : Z) (k : nat) : Z * Z :=
  (Z.max 1 (scaled_dim width k), Z.max 1 (scaled_dim height k)).

(** The calls of the rounds 1 to [n] when each runs to its end: round [j]
    resizes [img] to its dimensions, giving [tmps j], and encodes that at
    the six levels. *)
Definition full_rounds {P : PIL} (img : Image) (width height : Z)
    (tmps : nat -> Image) (n : nat) : list event :=
  flat_map (fun j => EvResize img (round_dims width height j) LANCZOS
                     :: saves (tmps j) [80; 75; 70; 65; 60; 55])
           (seq 1 n).

(** A file of the small format is four bytes. *)
Definition toy_valid (b : bytes) : bool := (List.length b =? 4)%nat.

(** A decoder that, as Pillow does for some truncated files, decodes a file
    whose last byte is missing: the height is taken equal to the width. *)
Definition lenient_open (b : bytes) : result Toy.image :=
  match b with
  | [m; d; w] =>
      Ok {| Toy.size := (Toy.Z_of_byte w, Toy.Z_of_byte w);
            Toy.mode := Toy.mode_of m; Toy.detail := Toy.Z_of_byte d |}
  | _ => Toy.open b
  end.

Definition lenient_pil : PIL := {|
  Image := Toy.image;
  Image_open := lenient_open;
  Image_convert := Toy.convert;
  Image_size := Toy.size;
  Image_resize := Toy.resize;
  Image_save := Toy.save
|}.

(** Every byte sequence that is not a valid image makes the fitter fail
    before any resize or encode: the property as a statement about a codec
    and about what its format calls valid. *)
Definition rejects_invalid (P : PIL) (valid : bytes -> bool) : Prop :=
  forall img_bytes width height,
    valid img_bytes = false ->
    exists t e,
      convert_and_compress_to_jpeg img_bytes width height = (t, Err e) /\
      count_resizes t = 0%nat /\ count_saves t = 0%nat.

(** * Properties *)

(** ** Runs *)

Section EffectLemmas.

Context {event : Type}.

Lemma bind_ok {A B} (c : M event A) (k : A -> M event B) t a :
  c = (t, Ok a) -> bind c k = (t ++ fst (k a), snd (k a)).
Proof. intros ->. unfold bind. destruct (k a); reflexivity. Qed.

Lemma bind_err {A B} (c : M event A) (k : A -> M event B) t e :
  c = (t, Err e) -> bind c k = (t, Err e).
Proof. intros ->. reflexivity. Qed.

Lemma bind_inv {A B} (c : M event A) (k : A -> M event B) t r :
  bind c k = (t, r) ->
  (exists e, c = (t, Err e) /\ r = Err e) \/
  (exists t1 a t2, c = (t1, Ok a) /\ k a = (t2, r) /\ t = t1 ++ t2).
Proof.
  unfold bind. destruct c as [t1 [a | e]].
  - destruct (k a) as [t2 r2] eqn:Hk. intros H. inversion H; subst.
    right. exists t1, a, t2. auto.
  - intros H. inversion H; subst. left. exists e. auto.
Qed.

End EffectLemmas.

(** ** Traces *)

Section TraceLemmas.

Context {P : PIL}.

Lemma count_saves_app (t1 t2 : list event) :
  count_saves (t1 ++ t2) = (count_saves t1 + count_saves t2)%nat.
Proof. unfold count_saves. rewrite filter_app, length_app. reflexivity. Qed.

Lemma count_resizes_app (t1 t2 : list event) :
  count_resizes (t1 ++ t2) = (count_resizes t1 + count_resizes t2)%nat.
Proof. unfold count_resizes. rewrite filter_app, length_app. reflexivity. Qed.

Lemma count_saves_saves img qs : count_saves (saves img qs) = List.length qs.
Proof.
  unfold count_saves, saves. induction qs as [| q qs IH]; simpl; [reflexivity |].
  now rewrite IH.
Qed.

Lemma count_resizes_saves img qs : count_resizes (saves img qs) = 0%nat.
Proof.
  unfold count_resizes, saves. induction qs as [| q qs IH]; simpl; auto.
Qed.

Lemma saves_app img qs1 qs2 : saves img (qs1 ++ qs2) = saves img qs1 ++ saves img qs2.
Proof. apply map_app. Qed.

Lemma after_first_save_skip (t1 t2 : list event) :
  count_saves t1 = 0%nat -> after_first_save (t1 ++ t2) = after_first_save t2.
Proof.
  unfold count_saves. induction t1 as [| ev t1 IH]; simpl; [reflexivity |].
  destruct (is_save ev); simpl; [discriminate | exact IH].
Qed.

Lemma last_app_cons {A} (l1 : list A) x l2 d : last (l1 ++ x :: l2) d = last (x :: l2) d.
Proof.
  induction l1 as [| y l1 IH]; [reflexivity |].
  simpl app. rewrite <- IH. simpl. destruct (l1 ++ x :: l2) eqn:E; [| reflexivity].
  destruct l1; discriminate.
Qed.

Lemma last_app_nonempty {A} (l1 l2 : list A) d :
  l2 <> [] -> last (l1 ++ l2) d = last l2 d.
Proof.
  destruct l2 as [| x l2]; [congruence |]. intros _. apply last_app_cons.
Qed.

End TraceLemmas.

(** ** The quality search *)

Section QualityLoop.

Context {P : PIL}.

Lemma quality_loop_cons img q rest :
  quality_loop img (q :: rest) =
    (data <- save img "JPEG" q true true ;;
     if len data <=? TARGET_MAX_BYTES then ret (Some data) else quality_loop img rest).
Proof. reflexivity. Qed.

(** A level that encodes above the budget is passed over. *)
Lemma quality_loop_skip img q rest d :
  Image_save img "JPEG" q true true = Ok d -> TARGET_MAX_BYTES < len d ->
  quality_loop img (q :: rest) =
    (EvSave img "JPEG" q true true :: fst (quality_loop img rest),
     snd (quality_loop img rest)).
Proof.
  intros Hs Hl. rewrite quality_loop_cons.
  erewrite bind_ok by (unfold save, call; rewrite Hs; reflexivity).
  apply Z.leb_gt in Hl. rewrite Hl. reflexivity.
Qed.

(** A level that fits ends the search. *)
Lemma quality_loop_hit img q rest d :
  Image_save img "JPEG" q true true = Ok d -> len d <= TARGET_MAX_BYTES ->
  quality_loop img (q :: rest) = ([EvSave img "JPEG" q true true], Ok (Some d)).
Proof.
  intros Hs Hl. rewrite quality_loop_cons.
  erewrite bind_ok by (unfold save, call; rewrite Hs; reflexivity).
  apply Z.leb_le in Hl. rewrite Hl. reflexivity.
Qed.

Lemma oversize_cons img q qs :
  oversize img (q :: qs) ->
  (exists d, Image_save img "JPEG" q true true = Ok d /\ TARGET_MAX_BYTES < len d) /\
  oversize img qs.
Proof.
  intros H. split; [apply H; left; reflexivity |].
  intros q' Hq'. apply H. right. exact Hq'.
Qed.

(** The first level that fits wins; no later level is encoded. *)
Lemma quality_loop_first_fit img pre q post data :
  oversize img pre ->
  Image_save img "JPEG" q true true = Ok data ->
  len data <= TARGET_MAX_BYTES ->
  quality_loop img (pre ++ q :: post) = (saves img (pre ++ [q]), Ok (Some data)).
Proof.
  intros Hpre Hs Hl. induction pre as [| p pre IH].
  - simpl app. now apply quality_loop_hit.
  - apply oversize_cons in Hpre. destruct Hpre as [[d [Hd Hbig]] Hpre].
    simpl app. rewrite (quality_loop_skip _ _ _ _ Hd Hbig), (IH Hpre). reflexivity.
Qed.

(** No level fits: every level is encoded once and the loop falls through. *)
Lemma quality_loop_none img qs :
  oversize img qs -> quality_loop img qs = (saves img qs, Ok None).
Proof.
  induction qs as [| q qs IH]; intros H; [reflexivity |].
  apply oversize_cons in H. destruct H as [[d [Hd Hbig]] H].
  rewrite (quality_loop_skip _ _ _ _ Hd Hbig), (IH H). reflexivity.
Qed.

(** What any run of the loop looks like. *)
Lemma quality_loop_inv img qs t r :
  quality_loop img qs = (t, r) ->
  exists qs1 qs2, qs = qs1 ++ qs2 /\ t = saves img qs1 /\
    match r with
    | Ok (Some data) =>
        exists pre q, qs1 = pre ++ [q] /\
          Image_save img "JPEG" q true true = Ok data /\
          len data <= TARGET_MAX_BYTES
    | Ok None => qs2 = []
    | Err _ => True
    end.
Proof.
  revert t r. induction qs as [| q qs IH]; intros t r H.
  - inversion H; subst. exists [], []. auto.
  - rewrite quality_loop_cons in H. apply bind_inv in H.
    destruct H as [[e [Hc ->]] | [t1 [d [t2 [Hc [Hk ->]]]]]];
      unfold save, call in Hc; inversion Hc; subst; clear Hc.
    + exists [q], qs. auto.
    + destruct (len d <=? TARGET_MAX_BYTES) eqn:Hl.
      * inversion Hk; subst. exists [q], qs. repeat split.
        exists [], q. apply Z.leb_le in Hl. auto.
      * apply IH in Hk. destruct Hk as [qs1 [qs2 [-> [-> Hr]]]].
        exists (q :: qs1), qs2. repeat split.
        destruct r as [[data |] | e]; auto.
        destruct Hr as [pre [q' [-> Hr]]]. exists (q :: pre), q'. auto.
Qed.

End QualityLoop.

(** ** Loading and the scale-down rounds *)

Section FitterLemmas.

Context {P : PIL}.

Lemma size_differs_false sz width height :
  size_differs sz width height = false -> sz = (width, height).
Proof.
  unfold size_differs. destruct sz as [w h]. simpl. intros H.
  apply negb_false_iff, andb_true_iff in H. destruct H as [Hw Hh].
  apply Z.eqb_eq in Hw, Hh. congruence.
Qed.

(** Lines 41-46 make at most three calls, none of them an encode, and hand
    over a raster of the target size. *)
Lemma load_rgb_inv img_bytes width height t r :
  load_rgb img_bytes width height = (t, r) ->
  count_saves t = 0%nat /\ (count_resizes t <= 1)%nat /\ (List.length t <= 3)%nat /\
  (forall img, PIL_resize_spec P -> r = Ok img -> Image_size img = (width, height)).
Proof.
  unfold load_rgb. intros H.
  apply bind_inv in H. destruct H as [[e [Hc ->]] | [t1 [i0 [t2 [Hc [H ->]]]]]];
    unfold open, call in Hc; inversion Hc; subst; clear Hc.
  { cbn. repeat split; try lia. intros; congruence. }
  apply bind_inv in H. destruct H as [[e [Hc ->]] | [t1 [i1 [t3 [Hc [H ->]]]]]];
    unfold convert, call in Hc; inversion Hc; subst; clear Hc.
  { cbn. repeat split; try lia. intros; congruence. }
  destruct (size_differs (Image_size i1) width height) eqn:Hsz.
  - unfold resize, call in H. inversion H; subst; clear H.
    cbn. repeat split; try lia. intros img Hspec Hr. eapply Hspec. exact Hr.
  - inversion H; subst; clear H.
    cbn. repeat split; try lia. intros img _ Hr. inversion Hr; subst.
    now apply size_differs_false.
Qed.

Lemma pow_0_9_1 : PyFloat.pow PyFloat.lit_0_9 1 = PyFloat.lit_0_9.
Proof. vm_compute. reflexivity. Qed.

(** The loop of lines 58-68, entered with the scale 0.9^(k+1), runs the
    rounds k+1, k+2, ... of the specification. *)
Lemma scale_loop_rounds n : forall k img width height,
  scale_loop img width height (PyFloat.pow PyFloat.lit_0_9 (S k)) n =
  spec_rounds img width height (seq (S k) n).
Proof.
  induction n as [| n IH]; intros k img width height; [reflexivity |].
  change (seq (S k) (S n)) with (S k :: seq (S (S k)) n).
  cbn [scale_loop spec_rounds]. rewrite <- (IH (S k)).
  change (PyFloat.pow PyFloat.lit_0_9 (S (S k)))
    with (PyFloat.mul (PyFloat.pow PyFloat.lit_0_9 (S k)) PyFloat.lit_0_9).
  unfold spec_round, spec_round_dims.
  generalize (PyFloat.pow PyFloat.lit_0_9 (S k)). intros s.
  destruct (scaled width s) as [new_w | e]; [| reflexivity].
  destruct (scaled height s) as [new_h | e]; [| reflexivity].
  unfold lift, resize, call, bind.
  destruct (Image_resize img (new_w, new_h) LANCZOS) as [tmp | e]; [| reflexivity].
  destruct (quality_loop tmp [80; 75; 70; 65; 60; 55]) as [t [[data |] | e]];
    cbn; try reflexivity.
  destruct (scale_loop img width height (PyFloat.mul s PyFloat.lit_0_9) n) as [t' r'].
  cbn. reflexivity.
Qed.

(** One round: at most one resize and six encodes; when it returns, the
    resize was to the dimensions of the round and the encodes are a prefix
    of the shorter ladder. *)
Lemma spec_round_inv img width height k t r :
  spec_round img width height k = (t, r) ->
  (count_resizes t <= 1)%nat /\ (count_saves t <= 6 * count_resizes t)%nat /\
  (forall res, r = Ok res ->
     exists dims tmp qs1 qs2,
       spec_round_dims width height k = Ok dims /\
       Image_resize img dims LANCZOS = Ok tmp /\
       t = EvResize img dims LANCZOS :: saves tmp qs1 /\
       [80; 75; 70; 65; 60; 55] = qs1 ++ qs2 /\
       match res with
       | Some data =>
           exists pre q, qs1 = pre ++ [q] /\
             Image_save tmp "JPEG" q true true = Ok data /\
             len data <= TARGET_MAX_BYTES
       | None => qs2 = []
       end).
Proof.
  unfold spec_round. intros H.
  apply bind_inv in H. destruct H as [[e [Hc ->]] | [t1 [dims [t2 [Hc [H ->]]]]]];
    unfold lift in Hc; inversion Hc; subst; clear Hc.
  { cbn. repeat split; try lia. intros; congruence. }
  apply bind_inv in H. destruct H as [[e [Hc ->]] | [t1 [tmp [t3 [Hc [H ->]]]]]];
    unfold resize, call in Hc; inversion Hc; subst; clear Hc.
  { cbn. repeat split; try lia. intros; congruence. }
  apply quality_loop_inv in H. destruct H as [qs1 [qs2 [Hqs [-> Hr]]]].
  assert (Hlen : (List.length qs1 <= 6)%nat).
  { apply (f_equal (@List.length Z)) in Hqs. rewrite length_app in Hqs.
    simpl in Hqs. lia. }
  cbn [app]. change (EvResize img dims LANCZOS :: saves tmp qs1)
    with ([EvResize img dims LANCZOS] ++ saves tmp qs1).
  rewrite count_resizes_app, count_saves_app, count_resizes_saves, count_saves_saves.
  cbn. repeat split; try lia.
  intros res ->. exists dims, tmp, qs1, qs2. repeat split; auto.
Qed.

End FitterLemmas.

Section FitterRuns.

Context {P : PIL}.

Lemma last_saves img qs q d :
  last (saves img (qs ++ [q])) d = EvSave img "JPEG" q true true.
Proof.
  rewrite saves_app. change (saves img [q]) with [EvSave img "JPEG" q true true].
  now rewrite last_app_cons.
Qed.

(** The rounds a, a+1, ..., a+n-1: at most [n] resizes, at most six encodes
    for each, and a success comes from the last round entered. *)
Lemma spec_rounds_inv n : forall a img width height t r,
  spec_rounds img width height (seq a n) = (t, r) ->
  (count_resizes t <= n)%nat /\ (count_saves t <= 6 * count_resizes t)%nat /\
  (forall data, r = Ok (Some data) ->
     exists dims tmp q,
       (1 <= count_resizes t)%nat /\
       spec_round_dims width height (a + count_resizes t - 1) = Ok dims /\
       Image_resize img dims LANCZOS = Ok tmp /\
       last t (EvOpen []) = EvSave tmp "JPEG" q true true /\
       Image_save tmp "JPEG" q true true = Ok data /\
       len data <= TARGET_MAX_BYTES).
Proof.
  induction n as [| n IH]; intros a img width height t r H.
  - inversion H; subst. cbn. repeat split; try lia. intros; congruence.
  - change (seq a (S n)) with (a :: seq (S a) n) in H. cbn [spec_rounds] in H.
    apply bind_inv in H. destruct H as [[e [Hc ->]] | [t1 [res [t2 [Hc [H ->]]]]]].
    + apply spec_round_inv in Hc. destruct Hc as [Hr [Hs _]].
      repeat split; try lia. intros; congruence.
    + apply spec_round_inv in Hc. destruct Hc as [_ [_ Hc]].
      destruct (Hc res eq_refl) as [dims [tmp [qs1 [qs2 [Hd [Hrs [-> [Hqs Hres]]]]]]]].
      assert (Hlen : (List.length qs1 <= 6)%nat).
      { apply (f_equal (@List.length Z)) in Hqs. rewrite length_app in Hqs.
        simpl in Hqs. lia. }
      change (EvResize img dims LANCZOS :: saves tmp qs1)
        with ([EvResize img dims LANCZOS] ++ saves tmp qs1).
      rewrite !count_resizes_app, !count_saves_app, count_resizes_saves, count_saves_saves.
      change (count_resizes [EvResize img dims LANCZOS]) with 1%nat.
      change (count_saves [EvResize img dims LANCZOS]) with 0%nat.
      destruct res as [data |].
      * inversion H; subst; clear H. cbn. repeat split; try lia.
        intros data' Hdata. inversion Hdata; subst data'.
        destruct Hres as [pre [q [-> [Hsave Hfit]]]].
        exists dims, tmp, q. rewrite Nat.add_sub. repeat split; auto.
        rewrite app_nil_r. pose proof (last_saves tmp pre q (EvOpen [])) as HL.
        destruct (saves tmp (pre ++ [q])) eqn:E; [| exact HL].
        apply map_eq_nil in E. destruct pre; discriminate.
      * apply IH in H. destruct H as [Hr [Hs Hok]].
        repeat split; try lia.
        intros data Hdata. destruct (Hok data Hdata) as [dims' [tmp' [q [Hge [Hd' H']]]]].
        exists dims', tmp', q. split; [lia |]. split.
        { replace (a + (1 + 0 + count_resizes t2) - 1)%nat
            with (S a + count_resizes t2 - 1)%nat by lia. exact Hd'. }
        destruct H' as [Hrs' [Hlast H']]. split; [exact Hrs' |]. split; [| exact H'].
        rewrite last_app_nonempty; [exact Hlast |].
        intros ->. cbn in Hge. lia.
Qed.

(** A successful fit is a successful load followed either by a hit on the
    long ladder, or by the whole long ladder and a hit in a round. *)
Lemma fit_ok_inv img_bytes width height t data :
  convert_and_compress_to_jpeg img_bytes width height = (t, Ok data) ->
  exists t0 img,
    load_rgb img_bytes width height = (t0, Ok img) /\
    ((exists pre q post,
        [95; 92; 90; 88; 85; 82; 80; 78; 75; 72; 70; 65; 60; 55; 50] = pre ++ q :: post /\
        t = t0 ++ saves img (pre ++ [q]) /\
        Image_save img "JPEG" q true true = Ok data /\
        len data <= TARGET_MAX_BYTES) \/
     (exists t2,
        t = t0 ++ saves img [95; 92; 90; 88; 85; 82; 80; 78; 75; 72; 70; 65; 60; 55; 50]
              ++ t2 /\
        spec_rounds img width height (seq 1 5) = (t2, Ok (Some data)))).
Proof.
  unfold convert_and_compress_to_jpeg. intros H.
  apply bind_inv in H. destruct H as [[e [_ He]] | [t0 [img [t1 [Hload [H ->]]]]]];
    [discriminate |].
  exists t0, img. split; [exact Hload |].
  apply bind_inv in H. destruct H as [[e [_ He]] | [t2 [res [t3 [Hq [H ->]]]]]];
    [discriminate |].
  apply quality_loop_inv in Hq. destruct Hq as [qs1 [qs2 [Hqs [-> Hres]]]].
  destruct res as [d |].
  - inversion H; subst; clear H. left.
    destruct Hres as [pre [q [-> [Hsave Hfit]]]].
    exists pre, q, qs2. rewrite app_nil_r. repeat split; auto.
    rewrite Hqs. now rewrite <- app_assoc.
  - subst qs2. rewrite app_nil_r in Hqs. subst qs1. right.
    apply bind_inv in H. destruct H as [[e [_ He]] | [t4 [res [t5 [Hs [H ->]]]]]];
      [discriminate |].
    rewrite <- pow_0_9_1, scale_loop_rounds in Hs.
    destruct res as [d |]; inversion H; subst; clear H.
    exists t4. rewrite app_nil_r. split; [reflexivity | exact Hs].
Qed.

End FitterRuns.

Section FitterWhole.

Context {P : PIL}.

Lemma after_first_save_saves img q qs (t : list event) :
  after_first_save (saves img (q :: qs) ++ t) = saves img qs ++ t.
Proof. reflexivity. Qed.

(** When the long ladder is exhausted the result is that of the rounds
    1 to 5, and running out of rounds is the [RuntimeError] of line 70. *)
Lemma fit_after_full_ladder img_bytes width height t0 img :
  load_rgb img_bytes width height = (t0, Ok img) ->
  oversize img [95; 92; 90; 88; 85; 82; 80; 78; 75; 72; 70; 65; 60; 55; 50] ->
  convert_and_compress_to_jpeg img_bytes width height =
    (t0 ++ saves img [95; 92; 90; 88; 85; 82; 80; 78; 75; 72; 70; 65; 60; 55; 50]
        ++ fst (spec_rounds img width height (seq 1 5)),
     match snd (spec_rounds img width height (seq 1 5)) with
     | Ok (Some data) => Ok data
     | Ok None => Err (RuntimeError "Could not compress image under the size limit.")
     | Err e => Err e
     end).
Proof.
  intros Hload Hbig. unfold convert_and_compress_to_jpeg.
  rewrite (bind_ok _ _ _ _ Hload).
  rewrite (bind_ok _ _ _ _ (quality_loop_none _ _ Hbig)).
  rewrite <- pow_0_9_1, scale_loop_rounds.
  destruct (spec_rounds img width height (seq 1 5)) as [t2 [[data |] | e]];
    cbn [fst snd bind ret raise]; rewrite ?app_nil_r; reflexivity.
Qed.

(** A round whose dimensions and resize succeed and whose ladder has a
    first level that fits returns that encoding. *)
Lemma spec_round_first_fit img width height k dims tmp pre q post data :
  spec_round_dims width height k = Ok dims ->
  Image_resize img dims LANCZOS = Ok tmp ->
  [80; 75; 70; 65; 60; 55] = pre ++ q :: post ->
  oversize tmp pre ->
  Image_save tmp "JPEG" q true true = Ok data ->
  len data <= TARGET_MAX_BYTES ->
  spec_round img width height k =
    (EvResize img dims LANCZOS :: saves tmp (pre ++ [q]), Ok (Some data)).
Proof.
  intros Hd Hr Hqs Hpre Hs Hl. unfold spec_round. rewrite Hd, Hqs.
  unfold lift. cbn [bind]. unfold resize, call. rewrite Hr. cbn [bind].
  rewrite (quality_loop_first_fit _ _ _ _ _ Hpre Hs Hl). reflexivity.
Qed.

(** A round in which nothing fits makes its seven calls and gives up. *)
Lemma spec_round_none img width height k dims tmp :
  spec_round_dims width height k = Ok dims ->
  Image_resize img dims LANCZOS = Ok tmp ->
  oversize tmp [80; 75; 70; 65; 60; 55] ->
  spec_round img width height k =
    (EvResize img dims LANCZOS :: saves tmp [80; 75; 70; 65; 60; 55], Ok None).
Proof.
  intros Hd Hr Hbig. unfold spec_round. rewrite Hd.
  unfold lift. cbn [bind]. unfold resize, call. rewrite Hr. cbn [bind].
  rewrite (quality_loop_none _ _ Hbig). reflexivity.
Qed.

Lemma spec_rounds_none n : forall a img width height,
  (forall k, (a <= k < a + n)%nat ->
     exists dims tmp,
       spec_round_dims width height k = Ok dims /\
       Image_resize img dims LANCZOS = Ok tmp /\
       oversize tmp [80; 75; 70; 65; 60; 55]) ->
  exists t, spec_rounds img width height (seq a n) = (t, Ok None) /\
            count_saves t = (6 * n)%nat /\ count_resizes t = n.
Proof.
  induction n as [| n IH]; intros a img width height H.
  - exists []. repeat split.
  - destruct (H a ltac:(lia)) as [dims [tmp [Hd [Hr Hbig]]]].
    destruct (IH (S a) img width height) as [t [Ht [Hs Hrz]]].
    { intros k Hk. apply H. lia. }
    exists ((EvResize img dims LANCZOS :: saves tmp [80; 75; 70; 65; 60; 55]) ++ t).
    change (seq a (S n)) with (a :: seq (S a) n). cbn [spec_rounds].
    rewrite (bind_ok _ _ _ _ (spec_round_none _ _ _ _ _ _ Hd Hr Hbig)), Ht.
    split; [reflexivity |].
    rewrite count_saves_app, count_resizes_app, Hs, Hrz.
    split; [cbn; lia | reflexivity].
Qed.

(** Every run, whatever its result: the calls of the load, then the encodes
    of the long ladder, then the rounds. *)
Lemma fit_trace img_bytes width height :
  exists t0 t1 t2,
    fst (convert_and_compress_to_jpeg img_bytes width height) = t0 ++ t1 ++ t2 /\
    count_saves t0 = 0%nat /\ (count_resizes t0 <= 1)%nat /\
    (count_saves t1 <= 15)%nat /\ count_resizes t1 = 0%nat /\
    (count_resizes t2 <= 5)%nat /\ (count_saves t2 <= 6 * count_resizes t2)%nat.
Proof.
  destruct (convert_and_compress_to_jpeg img_bytes width height) as [t r] eqn:H.
  unfold convert_and_compress_to_jpeg in H. cbn [fst].
  apply bind_inv in H. destruct H as [[e [Hl _]] | [t0 [img [t' [Hl [H ->]]]]]].
  { apply load_rgb_inv in Hl. destruct Hl as [Hs [Hr _]].
    exists t, [], []. rewrite !app_nil_r. repeat split; auto; cbn; lia. }
  apply load_rgb_inv in Hl. destruct Hl as [Hs0 [Hr0 _]].
  assert (Hfull : forall t1 r1,
    quality_loop img [95; 92; 90; 88; 85; 82; 80; 78; 75; 72; 70; 65; 60; 55; 50]
      = (t1, r1) -> (count_saves t1 <= 15)%nat /\ count_resizes t1 = 0%nat).
  { intros t1 r1 Hq. apply quality_loop_inv in Hq.
    destruct Hq as [qs1 [qs2 [Hqs [-> _]]]].
    rewrite count_saves_saves, count_resizes_saves.
    apply (f_equal (@List.length Z)) in Hqs. rewrite length_app in Hqs.
    simpl in Hqs. split; [lia | reflexivity]. }
  apply bind_inv in H. destruct H as [[e [Hq _]] | [t1 [res [t'' [Hq [H ->]]]]]].
  { destruct (Hfull _ _ Hq). exists t0, t', []. rewrite !app_nil_r.
    repeat split; auto; cbn; lia. }
  destruct (Hfull _ _ Hq) as [Hs1 Hr1]. destruct res as [data |].
  { inversion H; subst. exists t0, t1, []. repeat split; auto; cbn; lia. }
  assert (Hsc : exists t2 r2, t'' = t2 /\ spec_rounds img width height (seq 1 5) = (t2, r2)).
  { rewrite <- pow_0_9_1, scale_loop_rounds in H.
    apply bind_inv in H. destruct H as [[e [Hs _]] | [t2 [res [t3 [Hs [H ->]]]]]].
    - eauto.
    - exists t2, (Ok res). split; [| exact Hs].
      destruct res; inversion H; subst; apply app_nil_r. }
  destruct Hsc as [t2 [r2 [-> Hs]]]. apply spec_rounds_inv in Hs.
  destruct Hs as [Hr2 [Hs2 _]]. exists t0, t1, t2. repeat split; auto.
Qed.

(** The long ladder exhausted and a hit in the first round. *)
Lemma fit_first_round_hit img_bytes width height t0 img dims tmp pre q post data :
  load_rgb img_bytes width height = (t0, Ok img) ->
  oversize img [95; 92; 90; 88; 85; 82; 80; 78; 75; 72; 70; 65; 60; 55; 50] ->
  spec_round_dims width height 1 = Ok dims ->
  Image_resize img dims LANCZOS = Ok tmp ->
  [80; 75; 70; 65; 60; 55] = pre ++ q :: post ->
  oversize tmp pre ->
  Image_save tmp "JPEG" q true true = Ok data ->
  len data <= TARGET_MAX_BYTES ->
  convert_and_compress_to_jpeg img_bytes width height =
    (t0 ++ saves img [95; 92; 90; 88; 85; 82; 80; 78; 75; 72; 70; 65; 60; 55; 50]
        ++ EvResize img dims LANCZOS :: saves tmp (pre ++ [q]),
     Ok data).
Proof.
  intros Hload Hfull Hd Hr Hqs Hpre Hs Hl.
  rewrite (fit_after_full_ladder _ _ _ _ _ Hload Hfull).
  change (seq 1 5) with (1 :: seq 2 4)%nat. cbn [spec_rounds].
  rewrite (bind_ok _ _ _ _
             (spec_round_first_fit _ _ _ _ _ _ _ _ _ _ Hd Hr Hqs Hpre Hs Hl)).
  cbn [ret fst snd]. rewrite app_nil_r. reflexivity.
Qed.

Lemma scale_rounds_full t0 img qs :
  count_saves t0 = 0%nat -> scale_rounds (t0 ++ saves img qs) = 0%nat.
Proof.
  intros H. unfold scale_rounds. rewrite (after_first_save_skip _ _ H).
  destruct qs as [| q qs]; [reflexivity |].
  change (after_first_save (saves img (q :: qs))) with (saves img qs).
  apply count_resizes_saves.
Qed.

Lemma scale_rounds_rounds t0 img q qs t2 :
  count_saves t0 = 0%nat ->
  scale_rounds (t0 ++ saves img (q :: qs) ++ t2) = count_resizes t2.
Proof.
  intros H. unfold scale_rounds. rewrite (after_first_save_skip _ _ H).
  rewrite after_first_save_saves, count_resizes_app, count_resizes_saves.
  reflexivity.
Qed.

End FitterWhole.

(** ** Rounding: the float computation against exact arithmetic *)

Section Rounding.

Lemma scaled_dim_0 n : scaled_dim n 0 = n.
Proof. unfold scaled_dim. cbn. rewrite Z.mul_1_r. apply Z.div_1_r. Qed.

(** Up to 4096 pixels and in each of the five rounds, truncating the
    binary64 product is rounding the exact product down. *)
Lemma scaled_exact n k :
  0 <= n <= 4096 -> (1 <= k <= 5)%nat ->
  scaled n (PyFloat.pow PyFloat.lit_0_9 k) = Ok (Z.max 1 (scaled_dim n k)).
Proof.
  intros Hn Hk.
  assert (Hall : forallb (scaled_exact_upto 4097) [1; 2; 3; 4; 5]%nat = true)
    by (vm_compute; reflexivity).
  rewrite forallb_forall in Hall.
  assert (Hin : In k [1; 2; 3; 4; 5]%nat) by (simpl; lia).
  specialize (Hall k Hin). unfold scaled_exact_upto in Hall. cbv zeta in Hall.
  rewrite forallb_forall in Hall. specialize (Hall n).
  destruct (scaled n (PyFloat.pow PyFloat.lit_0_9 k)) as [m | e].
  - f_equal. apply Z.eqb_eq, Hall.
    rewrite <- (Z2Nat.id n) by lia. apply in_map, in_seq. lia.
  - discriminate Hall.
    rewrite <- (Z2Nat.id n) by lia. apply in_map, in_seq. lia.
Qed.

Lemma catalog_bounds width height :
  In (width, height) common_resolutions ->
  600 <= width <= 4096 /\ 600 <= height <= 4096.
Proof.
  unfold common_resolutions. simpl.
  intros H. repeat (destruct H as [H | H]; [inversion H; lia |]). contradiction.
Qed.

(** For a target of the catalog the clamp to 1 never applies. *)
Lemma catalog_round_dims width height k :
  In (width, height) common_resolutions -> (1 <= k <= 5)%nat ->
  spec_round_dims width height k = Ok (scaled_dim width k, scaled_dim height k).
Proof.
  intros Hin Hk. apply catalog_bounds in Hin. destruct Hin as [Hw Hh].
  unfold spec_round_dims. rewrite !scaled_exact by lia.
  assert (Hge : forall n, 600 <= n -> Z.max 1 (scaled_dim n k) = scaled_dim n k).
  { intros n Hn. apply Z.max_r. unfold scaled_dim.
    assert (Hk' : Z.of_nat k = 1 \/ Z.of_nat k = 2 \/ Z.of_nat k = 3 \/
                  Z.of_nat k = 4 \/ Z.of_nat k = 5) by lia.
    destruct Hk' as [-> | [-> | [-> | [-> | ->]]]];
      apply Z.div_le_lower_bound; cbn; lia. }
  now rewrite !Hge by lia.
Qed.

End Rounding.

(** ** The small codec *)

Section ToyFacts.

Lemma toy_resize_spec : PIL_resize_spec Toy.pil.
Proof.
  intros img sz f img'. cbn. unfold Toy.resize.
  destruct ((0 <? fst sz) && (0 <? snd sz)); intros H; inversion H; reflexivity.
Qed.

Lemma toy_len_encode img q : len (Toy.encode img q) = Toy.encoded_len img q.
Proof.
  unfold len, Toy.encode, Toy.encoded_len. cbn [List.length].
  rewrite repeat_length. lia.
Qed.

Lemma toy_save_rgb (img : Toy.image) q :
  Toy.mode img = "RGB" ->
  Image_save (PIL := Toy.pil) img "JPEG" q true true = Ok (Toy.encode img q).
Proof. intros H. cbn. unfold Toy.save. rewrite H. reflexivity. Qed.

Lemma toy_oversize (img : Toy.image) qs :
  Toy.mode img = "RGB" ->
  forallb (fun q => TARGET_MAX_BYTES <? Toy.encoded_len img q) qs = true ->
  oversize (P := Toy.pil) img qs.
Proof.
  intros Hm Hall q Hq. rewrite forallb_forall in Hall.
  exists (Toy.encode img q). split; [now apply toy_save_rgb |].
  rewrite toy_len_encode. apply Z.ltb_lt, Hall, Hq.
Qed.

Lemma toy_fits (img : Toy.image) q :
  (Toy.encoded_len img q <=? TARGET_MAX_BYTES) = true ->
  len (Toy.encode img q) <= TARGET_MAX_BYTES.
Proof. intros H. rewrite toy_len_encode. now apply Z.leb_le. Qed.

Lemma toy_oversized_len : len Toy.oversized_jpeg = MAX_BYTES + 1.
Proof.
  unfold len, Toy.oversized_jpeg. rewrite repeat_length.
  apply Z2Nat.id. unfold MAX_BYTES. lia.
Qed.

(** The noisy image at 1024x768: nothing fits at full resolution, and the
    first round fits at its last level. *)
Lemma toy_noisy_run :
  convert_and_compress_to_jpeg (P := Toy.pil) Toy.noisy 1024 768 =
    (fst (load_rgb (P := Toy.pil) Toy.noisy 1024 768)
       ++ saves (P := Toy.pil) (Toy.noisy_at 1024 768)
            [95; 92; 90; 88; 85; 82; 80; 78; 75; 72; 70; 65; 60; 55; 50]
       ++ EvResize (P := Toy.pil) (Toy.noisy_at 1024 768) (921, 691) LANCZOS
          :: saves (P := Toy.pil) (Toy.noisy_at 921 691) ([80; 75; 70; 65; 60] ++ [55]),
     Ok (Toy.encode (Toy.noisy_at 921 691) 55)).
Proof.
  apply (fit_first_round_hit (P := Toy.pil)) with (post := []).
  - reflexivity.
  - apply toy_oversize; [reflexivity | vm_compute; reflexivity].
  - vm_compute. reflexivity.
  - reflexivity.
  - reflexivity.
  - apply toy_oversize; [reflexivity | vm_compute; reflexivity].
  - reflexivity.
  - apply toy_fits. vm_compute. reflexivity.
Qed.

End ToyFacts.

(** * Main results *)

Section Claims.

Context {P : PIL}.

(** C1. Whenever [convert_and_compress_to_jpeg] returns, for every input
    and every target, the bytes returned are at most [TARGET_MAX_BYTES]
    = 950000 long, hence at most [MAX_BYTES] = 1000000. *)
Theorem fit_within_budget img_bytes width height t data :
  convert_and_compress_to_jpeg img_bytes width height = (t, Ok data) ->
  len data <= TARGET_MAX_BYTES /\ TARGET_MAX_BYTES = 950000 /\
  len data <= MAX_BYTES /\ MAX_BYTES = 1000000.
Proof.
  intros H. apply fit_ok_inv in H.
  destruct H as [t0 [img [_ [[pre [q [post [_ [_ [_ Hfit]]]]]] | [t2 [_ Hs]]]]]].
  - unfold TARGET_MAX_BYTES, MAX_BYTES in *. lia.
  - apply spec_rounds_inv in Hs. destruct Hs as [_ [_ Hs]].
    destruct (Hs data eq_refl) as [dims [tmp [q [_ [_ [_ [_ [_ Hfit]]]]]]]].
    unfold TARGET_MAX_BYTES, MAX_BYTES in *. lia.
Qed.

(** C4. The full-resolution search walks the ladder 95, 92, 90, 88, 85,
    82, 80, 78, 75, 72, 70, 65, 60, 55, 50 from the top: when the levels
    [pre] encode above the budget and the next level [q] fits, the fitter
    returns the encoding at [q], and its calls after the load are exactly
    the encodes at [pre] and at [q], in that order: nothing is encoded
    below [q] and nothing else is tried. *)
Theorem full_resolution_first_fit img_bytes width height t0 img pre q post data :
  load_rgb img_bytes width height = (t0, Ok img) ->
  [95; 92; 90; 88; 85; 82; 80; 78; 75; 72; 70; 65; 60; 55; 50] = pre ++ q :: post ->
  oversize img pre ->
  Image_save img "JPEG" q true true = Ok data ->
  len data <= TARGET_MAX_BYTES ->
  convert_and_compress_to_jpeg img_bytes width height =
    (t0 ++ saves img (pre ++ [q]), Ok data).
Proof.
  intros Hload Hqs Hpre Hs Hl. unfold convert_and_compress_to_jpeg.
  rewrite (bind_ok _ _ _ _ Hload), Hqs.
  rewrite (bind_ok _ _ _ _ (quality_loop_first_fit _ _ _ _ _ Hpre Hs Hl)).
  cbn [ret fst snd]. rewrite app_nil_r. reflexivity.
Qed.

(** C5. When every level of the long ladder and every level of each of
    the five rounds encodes above the budget, the fitter raises the
    [RuntimeError] of line 70 after its 45 encodes and returns no bytes. *)
Theorem compression_exhausted img_bytes width height t0 img :
  load_rgb img_bytes width height = (t0, Ok img) ->
  oversize img [95; 92; 90; 88; 85; 82; 80; 78; 75; 72; 70; 65; 60; 55; 50] ->
  (forall k, (1 <= k <= 5)%nat ->
     exists dims tmp,
       spec_round_dims width height k = Ok dims /\
       Image_resize img dims LANCZOS = Ok tmp /\
       oversize tmp [80; 75; 70; 65; 60; 55]) ->
  exists t,
    convert_and_compress_to_jpeg img_bytes width height =
      (t, Err (RuntimeError "Could not compress image under the size limit.")) /\
    count_saves t = 45%nat.
Proof.
  intros Hload Hfull Hrounds.
  destruct (spec_rounds_none 5 1 img width height) as [t2 [Ht2 [Hs2 _]]].
  { intros k Hk. apply Hrounds. lia. }
  rewrite (fit_after_full_ladder _ _ _ _ _ Hload Hfull), Ht2. cbn [fst snd].
  eexists. split; [reflexivity |].
  apply load_rgb_inv in Hload. destruct Hload as [Hs0 _].
  rewrite !count_saves_app, count_saves_saves, Hs0, Hs2. reflexivity.
Qed.

(** C7. Bytes that Pillow cannot decode make the fitter fail with the
    decoder's exception at the decode step: the only calls made are the
    open (and the conversion that loads the pixels, when the open itself
    succeeded); no resize and no encode is attempted. *)
Theorem decode_failure_first img_bytes width height t e :
  (Image_open img_bytes = Err e /\ t = [EvOpen img_bytes]) \/
  (exists img, Image_open img_bytes = Ok img /\
               Image_convert img "RGB" = Err e /\
               t = [EvOpen img_bytes; EvConvert img "RGB"]) ->
  convert_and_compress_to_jpeg img_bytes width height = (t, Err e) /\
  count_resizes t = 0%nat /\ count_saves t = 0%nat.
Proof.
  intros [[Ho ->] | [img [Ho [Hc ->]]]];
    (split; [| split; reflexivity]);
    unfold convert_and_compress_to_jpeg, load_rgb, open, convert, call.
  - rewrite Ho. reflexivity.
  - rewrite Ho. cbn [bind]. rewrite Hc. reflexivity.
Qed.

(** C10. Every run of the fitter is bounded: its calls are those of the
    load (no encode), then at most 15 encodes at full resolution, then at
    most 5 rounds of one resize and at most 6 encodes each; at most 45
    encodes in all. *)
Theorem bounded_encode_attempts img_bytes width height :
  exists t0 t1 t2,
    fst (convert_and_compress_to_jpeg img_bytes width height) = t0 ++ t1 ++ t2 /\
    count_saves t0 = 0%nat /\
    (count_saves t1 <= 15)%nat /\ count_resizes t1 = 0%nat /\
    (count_resizes t2 <= 5)%nat /\ (count_saves t2 <= 6 * count_resizes t2)%nat /\
    (count_saves (fst (convert_and_compress_to_jpeg img_bytes width height)) <= 45)%nat.
Proof.
  destruct (fit_trace img_bytes width height)
    as [t0 [t1 [t2 [Ht [Hs0 [Hr0 [Hs1 [Hr1 [Hr2 Hs2]]]]]]]]].
  exists t0, t1, t2. rewrite Ht, !count_saves_app. repeat split; auto; lia.
Qed.

(** C2 (amended). For a target of the catalog and a codec whose resize
    gives the size asked for, the output of a successful fit is the
    encoding of a raster of exactly (width, height) when no scale-down
    round ran, and of (floor(width * 0.9^k), floor(height * 0.9^k)) when
    round k succeeded: [int] truncates, it does not round to nearest. *)
Theorem catalog_output_dimensions (Hspec : PIL_resize_spec P) img_bytes width height :
  In (width, height) common_resolutions ->
  output_dimensions scaled_dim img_bytes width height /\
  (forall n, scaled_dim n 0 = n).
Proof.
  intros Hin. split; [| exact scaled_dim_0]. intros t data H.
  apply fit_ok_inv in H.
  destruct H as [t0 [img [Hload [[pre [q [post [_ [-> [Hsave _]]]]]] | [t2 [-> Hs]]]]]];
    apply load_rgb_inv in Hload; destruct Hload as [Hs0 [_ [_ Hsize]]].
  - exists img, q. rewrite (scale_rounds_full _ _ _ Hs0), !scaled_dim_0.
    repeat split; auto; try lia.
    rewrite last_app_nonempty; [apply last_saves |].
    intros E. apply map_eq_nil in E. destruct pre; discriminate.
  - apply spec_rounds_inv in Hs. destruct Hs as [Hle [_ Hs]].
    destruct (Hs data eq_refl) as [dims [tmp [q [Hge [Hd [Hr [Hlast [Hsave _]]]]]]]].
    exists tmp, q. rewrite (scale_rounds_rounds _ _ _ _ _ Hs0).
    replace (1 + count_resizes t2 - 1)%nat with (count_resizes t2) in Hd by lia.
    rewrite (catalog_round_dims _ _ _ Hin (conj Hge Hle)) in Hd.
    inversion Hd; subst dims.
    assert (Hne : t2 <> []) by (intros ->; cbn in Hge; lia).
    repeat split; auto.
    + rewrite !last_app_nonempty; auto. intros E. apply app_eq_nil in E. tauto.
    + eapply Hspec. exact Hr.
Qed.

End Claims.

Section MainClaims.

Context {P : PIL} {W : World}.

(** C6. The budget is strictly below the hard limit, and [main] checks the
    length of what the fitter returned against [MAX_BYTES]: a fitter that
    returns more than that makes the run fail with a [RuntimeError] right
    after the fit, before any call to the client. *)
Theorem main_revalidates_size fitter width height t1 raw_bytes final_url t2 jpeg_bytes :
  is_empty (strip (environ_get "BSKY_HANDLE" (str_of ""))) = false ->
  is_empty (strip (environ_get "BSKY_APP_PASSWORD" (str_of ""))) = false ->
  random_choice common_resolutions = Ok (width, height) ->
  download_random_picsum width height 30 = (t1, Ok (raw_bytes, final_url)) ->
  fitter raw_bytes width height = (t2, Ok jpeg_bytes) ->
  MAX_BYTES < len jpeg_bytes ->
  TARGET_MAX_BYTES < MAX_BYTES /\
  main_body fitter =
    (t1 ++ t2,
     Err (RuntimeError
            ("Image is still too large: " ++ str_of_int (len jpeg_bytes) ++ " bytes")%string)).
Proof.
  intros Hh Hp Hc Hd Hf Hbig. split; [reflexivity |].
  unfold main_body. rewrite Hh, Hp, Hc. cbn [orb lift bind].
  rewrite Hd. cbn [bind]. rewrite Hf. cbn [bind].
  assert (Hgt : (len jpeg_bytes >? MAX_BYTES) = true) by (apply Z.gtb_lt; exact Hbig).
  rewrite Hgt. cbn [raise]. rewrite app_nil_r. reflexivity.
Qed.

(** C9. When [BSKY_HANDLE] or [BSKY_APP_PASSWORD] is not set, [main] fails
    with the [RuntimeError] of line 79 and has made no call at all: no
    fetch, no decode or encode, no login, no post. *)
Theorem missing_credentials_fatal :
  environ "BSKY_HANDLE" = None \/ environ "BSKY_APP_PASSWORD" = None ->
  main =
    ([], Err (RuntimeError
                "Missing BSKY_HANDLE or BSKY_APP_PASSWORD environment variables.")).
Proof.
  intros [H | H]; unfold main, main_body, environ_get; rewrite H; cbn [strip lstrip rstrip is_empty].
  - reflexivity.
  - rewrite orb_true_r. reflexivity.
Qed.

End MainClaims.

(** * The results on the small codec *)

(** C1 on the plain image at 8x8: the fit returns the two-byte encoding. *)
Lemma fit_within_budget_witness :
  convert_and_compress_to_jpeg (P := Toy.pil) Toy.plain 8 8 =
    (fst (convert_and_compress_to_jpeg (P := Toy.pil) Toy.plain 8 8), Ok [xff; xd8]) /\
  len [xff; xd8] <= TARGET_MAX_BYTES /\ TARGET_MAX_BYTES = 950000 /\
  len [xff; xd8] <= MAX_BYTES /\ MAX_BYTES = 1000000.
Proof.
  assert (Hrun : convert_and_compress_to_jpeg (P := Toy.pil) Toy.plain 8 8 =
            (fst (convert_and_compress_to_jpeg (P := Toy.pil) Toy.plain 8 8),
             Ok [xff; xd8])) by reflexivity.
  split; [exact Hrun |].
  exact (fit_within_budget (P := Toy.pil) Toy.plain 8 8
           (fst (convert_and_compress_to_jpeg (P := Toy.pil) Toy.plain 8 8))
           [xff; xd8] Hrun).
Defined.

(** C4 on the noisy image at 1000x700: fourteen levels are over the budget
    and the last one, 50, fits. *)
Lemma full_resolution_first_fit_witness :
  convert_and_compress_to_jpeg (P := Toy.pil) Toy.noisy 1000 700 =
    (fst (load_rgb (P := Toy.pil) Toy.noisy 1000 700)
       ++ saves (P := Toy.pil) (Toy.noisy_at 1000 700)
            ([95; 92; 90; 88; 85; 82; 80; 78; 75; 72; 70; 65; 60; 55] ++ [50]),
     Ok (Toy.encode (Toy.noisy_at 1000 700) 50)).
Proof.
  apply (full_resolution_first_fit (P := Toy.pil)) with (post := []).
  - reflexivity.
  - reflexivity.
  - apply toy_oversize; [reflexivity | vm_compute; reflexivity].
  - reflexivity.
  - apply toy_fits. vm_compute. reflexivity.
Defined.

(** C5 on the noisy image at 1920x1080: nothing fits, down to 1133x637 at
    quality 55. *)
Lemma compression_exhausted_witness :
  exists t,
    convert_and_compress_to_jpeg (P := Toy.pil) Toy.noisy 1920 1080 =
      (t, Err (RuntimeError "Could not compress image under the size limit.")) /\
    count_saves t = 45%nat.
Proof.
  apply (compression_exhausted (P := Toy.pil) Toy.noisy 1920 1080
           (fst (load_rgb (P := Toy.pil) Toy.noisy 1920 1080)) (Toy.noisy_at 1920 1080)).
  - reflexivity.
  - apply toy_oversize; [reflexivity | vm_compute; reflexivity].
  - intros k Hk.
    assert (Hcases : k = 1%nat \/ k = 2%nat \/ k = 3%nat \/ k = 4%nat \/ k = 5%nat) by lia.
    destruct Hcases as [-> | [-> | [-> | [-> | ->]]]].
    + exists (1728, 972), (Toy.noisy_at 1728 972).
      split; [vm_compute; reflexivity | split; [reflexivity |]].
      apply toy_oversize; [reflexivity | vm_compute; reflexivity].
    + exists (1555, 874), (Toy.noisy_at 1555 874).
      split; [vm_compute; reflexivity | split; [reflexivity |]].
      apply toy_oversize; [reflexivity | vm_compute; reflexivity].
    + exists (1399, 787), (Toy.noisy_at 1399 787).
      split; [vm_compute; reflexivity | split; [reflexivity |]].
      apply toy_oversize; [reflexivity | vm_compute; reflexivity].
    + exists (1259, 708), (Toy.noisy_at 1259 708).
      split; [vm_compute; reflexivity | split; [reflexivity |]].
      apply toy_oversize; [reflexivity | vm_compute; reflexivity].
    + exists (1133, 637), (Toy.noisy_at 1133 637).
      split; [vm_compute; reflexivity | split; [reflexivity |]].
      apply toy_oversize; [reflexivity | vm_compute; reflexivity].
Defined.

(** C7 on the empty byte string. *)
Lemma decode_failure_first_witness :
  Image_open (PIL := Toy.pil) [] =
    Err (LibraryError "UnidentifiedImageError" "cannot identify image file") /\
  convert_and_compress_to_jpeg (P := Toy.pil) [] 800 600 =
    ([EvOpen []],
     Err (LibraryError "UnidentifiedImageError" "cannot identify image file")) /\
  count_resizes (P := Toy.pil) [EvOpen []] = 0%nat /\
  count_saves (P := Toy.pil) [EvOpen []] = 0%nat.
Proof.
  split; [reflexivity |].
  apply (decode_failure_first (P := Toy.pil)). left. split; reflexivity.
Defined.

(** C2 (amended) on the noisy image at 1024x768. *)
Lemma catalog_output_dimensions_witness :
  In (1024, 768) common_resolutions /\
  output_dimensions (P := Toy.pil) scaled_dim Toy.noisy 1024 768.
Proof.
  assert (Hin : In (1024, 768) common_resolutions) by (simpl; auto).
  split; [exact Hin |].
  exact (proj1 (catalog_output_dimensions toy_resize_spec Toy.noisy 1024 768 Hin)).
Defined.

(** C2 as stated fails: on the noisy image at 1024x768 the fit succeeds in
    round 1 with a raster of 921x691, and round(1024 * 0.9) is 922. *)
Lemma rounded_dimensions_counterexample :
  In (1024, 768) common_resolutions /\
  ~ output_dimensions (P := Toy.pil) rounded_dim Toy.noisy 1024 768.
Proof.
  split; [simpl; auto |]. intros H.
  destruct (H _ _ toy_noisy_run) as [img [q [Hlast [_ [_ Hsize]]]]].
  vm_compute in Hlast. inversion Hlast; subst img.
  vm_compute in Hsize. discriminate Hsize.
Qed.

(** C6 with a fitter that returns 1000001 bytes. *)
Lemma main_revalidates_size_witness :
  MAX_BYTES < len Toy.oversized_jpeg /\
  TARGET_MAX_BYTES < MAX_BYTES /\
  main_body (P := Toy.pil) (W := Toy.world Toy.env_full) Toy.careless_fitter =
    ([EvGet "https://picsum.photos/1024/768" 30 true],
     Err (RuntimeError "Image is still too large: 1000001 bytes")).
Proof.
  assert (Hbig : MAX_BYTES < len Toy.oversized_jpeg)
    by (rewrite toy_oversized_len; reflexivity).
  split; [exact Hbig |].
  pose proof (main_revalidates_size (P := Toy.pil) (W := Toy.world Toy.env_full)
                Toy.careless_fitter 1024 768
                [EvGet "https://picsum.photos/1024/768" 30 true]
                [x01; x00; x08; x08]
                "https://fastly.picsum.photos/id/10/1024/768.jpg"
                [] Toy.oversized_jpeg
                eq_refl eq_refl eq_refl eq_refl eq_refl Hbig) as [Hlt Hmain].
  rewrite toy_oversized_len in Hmain. exact (conj Hlt Hmain).
Defined.

(** C9 with the password unset. *)
Lemma missing_credentials_fatal_witness :
  environ (World := Toy.world Toy.env_no_password) "BSKY_APP_PASSWORD" = None /\
  main (P := Toy.pil) (W := Toy.world Toy.env_no_password) =
    ([], Err (RuntimeError
                "Missing BSKY_HANDLE or BSKY_APP_PASSWORD environment variables.")).
Proof.
  split; [reflexivity |].
  apply (missing_credentials_fatal (P := Toy.pil) (W := Toy.world Toy.env_no_password)).
  right. reflexivity.
Defined.

(** * Further properties of the fitter *)

Section FitterOrder.

Context {P : PIL}.

Lemma oversize_nil img : oversize img [].
Proof. intros q []. Qed.

Lemma oversize_cons_intro img q qs d :
  Image_save img "JPEG" q true true = Ok d -> TARGET_MAX_BYTES < len d ->
  oversize img qs -> oversize img (q :: qs).
Proof.
  intros Hs Hl H q' [<- | Hq']; [exists d; auto | apply H, Hq'].
Qed.

(** Every run of the loop, with what happened at each level. *)
Lemma quality_loop_run img qs t r :
  quality_loop img qs = (t, r) ->
  match r with
  | Ok None => oversize img qs /\ t = saves img qs
  | Ok (Some data) =>
      exists pre q post, qs = pre ++ q :: post /\ oversize img pre /\
        Image_save img "JPEG" q true true = Ok data /\
        len data <= TARGET_MAX_BYTES /\ t = saves img (pre ++ [q])
  | Err e =>
      exists pre q post, qs = pre ++ q :: post /\ oversize img pre /\
        Image_save img "JPEG" q true true = Err e /\ t = saves img (pre ++ [q])
  end.
Proof.
  revert t r. induction qs as [| q qs IH]; intros t r H.
  - inversion H; subst. split; [apply oversize_nil | reflexivity].
  - rewrite quality_loop_cons in H. apply bind_inv in H.
    destruct H as [[e [Hc ->]] | [t1 [d [t2 [Hc [Hk ->]]]]]];
      unfold save, call in Hc; injection Hc as <- Hsave.
    + exists [], q, qs. repeat split; auto. apply oversize_nil.
    + destruct (len d <=? TARGET_MAX_BYTES) eqn:Hl.
      * injection Hk as <- <-. exists [], q, qs. apply Z.leb_le in Hl.
        repeat split; auto. apply oversize_nil.
      * apply Z.leb_gt in Hl. apply IH in Hk. destruct r as [[data |] | e].
        -- destruct Hk as [pre [q' [post [-> [Hpre [Hs [Hfit ->]]]]]]].
           exists (q :: pre), q', post. repeat split; auto.
           eapply oversize_cons_intro; eauto.
        -- destruct Hk as [Hall ->]. split; [| reflexivity].
           eapply oversize_cons_intro; eauto.
        -- destruct Hk as [pre [q' [post [-> [Hpre [Hs ->]]]]]].
           exists (q :: pre), q', post. repeat split; auto.
           eapply oversize_cons_intro; eauto.
Qed.

(** The rounds a, a+1, ...: the first [j] of them ran to their end over the
    budget, and either all did, or round [a + j] decided the result. *)
Lemma spec_rounds_run n : forall a img width height t r,
  spec_rounds img width height (seq a n) = (t, r) ->
  exists j t1 t2,
    (j <= n)%nat /\
    (forall k, (a <= k < a + j)%nat -> round_over_budget img width height k) /\
    t = t1 ++ t2 /\ count_saves t1 = (6 * j)%nat /\ count_resizes t1 = j /\
    match r with
    | Ok None => j = n /\ t2 = []
    | _ => (j < n)%nat /\ spec_round img width height (a + j) = (t2, r)
    end.
Proof.
  induction n as [| n IH]; intros a img width height t r H.
  - inversion H; subst. exists 0%nat, [], []. repeat split; auto; intros k Hk; lia.
  - change (seq a (S n)) with (a :: seq (S a) n) in H. cbn [spec_rounds] in H.
    apply bind_inv in H. destruct H as [[e [Hc ->]] | [t1 [res [t2 [Hc [H ->]]]]]].
    + exists 0%nat, [], t. rewrite Nat.add_0_r. repeat split; auto; try lia; intros k Hk; lia.
    + destruct res as [data |].
      * injection H as <- <-. exists 0%nat, [], t1.
        rewrite Nat.add_0_r, app_nil_r. repeat split; auto; try lia; intros k Hk; lia.
      * assert (Hround : round_over_budget img width height a /\
                         count_saves t1 = 6%nat /\ count_resizes t1 = 1%nat).
        { unfold spec_round in Hc.
          apply bind_inv in Hc.
          destruct Hc as [[e [_ He]] | [t3 [dims [t4 [Hd [Hc ->]]]]]]; [discriminate |].
          unfold lift in Hd. injection Hd as <- Hd.
          apply bind_inv in Hc.
          destruct Hc as [[e [_ He]] | [t3 [tmp [t5 [Hr [Hc ->]]]]]]; [discriminate |].
          unfold resize, call in Hr. injection Hr as <- Hr.
          apply quality_loop_run in Hc. destruct Hc as [Hall ->].
          split; [exists dims, tmp; auto |].
          cbn [app].
          change (EvResize img dims LANCZOS :: saves tmp [80; 75; 70; 65; 60; 55])
            with ([EvResize img dims LANCZOS] ++ saves tmp [80; 75; 70; 65; 60; 55]).
          rewrite count_saves_app, count_resizes_app, count_saves_saves, count_resizes_saves.
          split; reflexivity. }
        destruct Hround as [Hround [Hs1 Hr1]].
        apply IH in H. destruct H as [j [u1 [u2 [Hj [Hpre [-> [Hs [Hr Hres]]]]]]]].
        exists (S j), (t1 ++ u1), u2.
        rewrite count_saves_app, count_resizes_app, Hs1, Hr1, Hs, Hr, app_assoc.
        repeat split; try lia.
        -- intros k Hk. destruct (Nat.eq_dec k a) as [-> | Hne]; [exact Hround |].
           apply Hpre. lia.
        -- replace (a + S j)%nat with (S a + j)%nat by lia.
           destruct r as [[d |] | e].
           ++ destruct Hres. split; [lia | assumption].
           ++ destruct Hres. split; [lia | assumption].
           ++ destruct Hres. split; [lia | assumption].
Qed.

End FitterOrder.

Section FitterRunsMore.

Context {P : PIL}.

Lemma last_cons_app {A} (x : A) l y d : last (x :: l ++ [y]) d = y.
Proof.
  change (x :: l ++ [y]) with ((x :: l) ++ [y]). now rewrite last_last.
Qed.

(** A failed load failed in its last call. *)
Lemma load_rgb_error img_bytes width height t e :
  load_rgb img_bytes width height = (t, Err e) ->
  t <> [] /\ raised_by (last t (EvOpen [])) e.
Proof.
  unfold load_rgb. intros H.
  apply bind_inv in H. destruct H as [[e' [Hc He]] | [t1 [i0 [t2 [Hc [H ->]]]]]];
    unfold open, call in Hc; injection Hc as <- Ho.
  { injection He as <-. split; [discriminate | exact Ho]. }
  apply bind_inv in H. destruct H as [[e' [Hc He]] | [t1 [i1 [t3 [Hc [H ->]]]]]];
    unfold convert, call in Hc; injection Hc as <- Hcv.
  { injection He as <-. split; [discriminate | exact Hcv]. }
  destruct (size_differs (Image_size i1) width height).
  - unfold resize, call in H. injection H as <- Hr. split; [discriminate | exact Hr].
  - discriminate H.
Qed.

(** A round that returns an encoding. *)
Lemma spec_round_hit_inv img width height k t data :
  spec_round img width height k = (t, Ok (Some data)) ->
  exists dims tmp pre q post,
    spec_round_dims width height k = Ok dims /\
    Image_resize img dims LANCZOS = Ok tmp /\
    [80; 75; 70; 65; 60; 55] = pre ++ q :: post /\
    oversize tmp pre /\
    Image_save tmp "JPEG" q true true = Ok data /\
    len data <= TARGET_MAX_BYTES /\
    t = EvResize img dims LANCZOS :: saves tmp (pre ++ [q]).
Proof.
  unfold spec_round. intros H.
  apply bind_inv in H.
  destruct H as [[e [_ He]] | [t1 [dims [t2 [Hd [H ->]]]]]]; [discriminate |].
  unfold lift in Hd. injection Hd as <- Hd.
  apply bind_inv in H.
  destruct H as [[e [_ He]] | [t1 [tmp [t3 [Hr [H ->]]]]]]; [discriminate |].
  unfold resize, call in Hr. injection Hr as <- Hr.
  apply quality_loop_run in H.
  destruct H as [pre [q [post [Hqs [Hpre [Hs [Hfit ->]]]]]]].
  exists dims, tmp, pre, q, post. repeat split; auto.
Qed.

(** A round that raises: in the float arithmetic before any call, or in
    its last call. *)
Lemma spec_round_error img width height k t e :
  spec_round img width height k = (t, Err e) ->
  (t = [] /\ spec_round_dims width height k = Err e) \/
  (t <> [] /\ raised_by (last t (EvOpen [])) e).
Proof.
  unfold spec_round. intros H.
  apply bind_inv in H.
  destruct H as [[e' [Hd He]] | [t1 [dims [t2 [Hd [H ->]]]]]];
    unfold lift in Hd; injection Hd as <- Hd.
  { injection He as <-. left. auto. }
  right. apply bind_inv in H.
  destruct H as [[e' [Hr He]] | [t1 [tmp [t3 [Hr [H ->]]]]]];
    unfold resize, call in Hr; injection Hr as <- Hr.
  { injection He as <-. split; [discriminate | exact Hr]. }
  apply quality_loop_run in H. destruct H as [pre [q [post [_ [_ [Hs ->]]]]]].
  split; [discriminate |].
  cbn [app]. unfold saves. rewrite map_app. cbn [map].
  rewrite last_cons_app. exact Hs.
Qed.

(** Every run of the fitter: a failed load; or a load and a long ladder
    that decided; or a load, the whole long ladder over the budget, and the
    rounds. *)
Lemma fit_run img_bytes width height t r :
  convert_and_compress_to_jpeg img_bytes width height = (t, r) ->
  (exists e, load_rgb img_bytes width height = (t, Err e) /\ r = Err e) \/
  (exists t0 img, load_rgb img_bytes width height = (t0, Ok img) /\
     ((exists t1 r1,
         quality_loop img [95; 92; 90; 88; 85; 82; 80; 78; 75; 72; 70; 65; 60; 55; 50]
           = (t1, r1) /\
         t = t0 ++ t1 /\
         match r1 with
         | Ok (Some data) => r = Ok data
         | Ok None => False
         | Err e => r = Err e
         end) \/
      (oversize img [95; 92; 90; 88; 85; 82; 80; 78; 75; 72; 70; 65; 60; 55; 50] /\
       exists t2 r2,
         spec_rounds img width height (seq 1 5) = (t2, r2) /\
         t = t0 ++ saves img [95; 92; 90; 88; 85; 82; 80; 78; 75; 72; 70; 65; 60; 55; 50]
               ++ t2 /\
         r = match r2 with
             | Ok (Some data) => Ok data
             | Ok None =>
                 Err (RuntimeError "Could not compress image under the size limit.")
             | Err e => Err e
             end))).
Proof.
  unfold convert_and_compress_to_jpeg. intros H.
  apply bind_inv in H. destruct H as [[e [Hl He]] | [t0 [img [t' [Hl [H ->]]]]]].
  { left. exists e. auto. }
  right. exists t0, img. split; [exact Hl |].
  apply bind_inv in H. destruct H as [[e [Hq He]] | [t1 [res [t'' [Hq [H ->]]]]]].
  { left. exists t', (Err e). auto. }
  destruct res as [data |].
  { injection H as <- <-. left. exists t1, (Ok (Some data)). rewrite app_nil_r. auto. }
  right. pose proof (quality_loop_run _ _ _ _ Hq) as [Hall ->].
  split; [exact Hall |].
  rewrite <- pow_0_9_1, scale_loop_rounds in H.
  apply bind_inv in H. destruct H as [[e [Hs He]] | [t2 [res [t3 [Hs [H ->]]]]]].
  - exists t'', (Err e). auto.
  - exists t2, (Ok res). split; [exact Hs |].
    destruct res as [data |]; injection H as <- <-; rewrite app_nil_r; auto.
Qed.

(** Rounds over the budget up to round a + j, and a hit there. *)
Lemma spec_rounds_hit j : forall n a img width height tk data,
  (j < n)%nat ->
  (forall k, (a <= k < a + j)%nat -> round_over_budget img width height k) ->
  spec_round img width height (a + j) = (tk, Ok (Some data)) ->
  exists t1,
    spec_rounds img width height (seq a n) = (t1 ++ tk, Ok (Some data)) /\
    count_saves t1 = (6 * j)%nat /\ count_resizes t1 = j.
Proof.
  induction j as [| j IH]; intros n a img width height tk data Hn Hpre Hk;
    (destruct n as [| n]; [lia |]);
    change (seq a (S n)) with (a :: seq (S a) n); cbn [spec_rounds].
  - rewrite Nat.add_0_r in Hk. exists []. rewrite (bind_ok _ _ _ _ Hk).
    cbn [ret fst snd app]. rewrite app_nil_r. auto.
  - destruct (Hpre a ltac:(lia)) as [dims [tmp [Hd [Hr Hall]]]].
    destruct (IH n (S a) img width height tk data) as [t1 [Ht1 [Hs Hrz]]].
    + lia.
    + intros k Hk'. apply Hpre. lia.
    + replace (S a + j)%nat with (a + S j)%nat by lia. exact Hk.
    + exists ((EvResize img dims LANCZOS :: saves tmp [80; 75; 70; 65; 60; 55]) ++ t1).
      rewrite (bind_ok _ _ _ _ (spec_round_none _ _ _ _ _ _ Hd Hr Hall)), Ht1.
      cbn [fst snd]. rewrite <- app_assoc. split; [reflexivity |].
      rewrite count_saves_app, count_resizes_app, Hs, Hrz. split; cbn; lia.
Qed.

Lemma fit_ok_budget img_bytes width height t data :
  convert_and_compress_to_jpeg img_bytes width height = (t, Ok data) ->
  len data <= TARGET_MAX_BYTES.
Proof.
  intros H. apply fit_ok_inv in H.
  destruct H as [t0 [img [_ [[pre [q [post [_ [_ [_ Hfit]]]]]] | [t2 [_ Hs]]]]]];
    [exact Hfit |].
  apply spec_rounds_inv in Hs. destruct Hs as [_ [_ Hs]].
  destruct (Hs data eq_refl) as [dims [tmp [q [_ [_ [_ [_ [_ Hfit]]]]]]]]. exact Hfit.
Qed.

End FitterRunsMore.

Section FitterExtras.

Context {P : PIL}.

(** X1. The encoding a successful fit returns is the first one within the
    budget in the order the fitter tries them: either a level of the long
    ladder with every level above it over the budget, or the whole long
    ladder over the budget, every earlier round over the budget at all six
    levels, and a level of round k with every level above it over the
    budget. *)
Theorem fit_returns_first_fitting img_bytes width height t data :
  convert_and_compress_to_jpeg img_bytes width height = (t, Ok data) ->
  exists t0 img,
    load_rgb img_bytes width height = (t0, Ok img) /\
    ((exists pre q post,
        [95; 92; 90; 88; 85; 82; 80; 78; 75; 72; 70; 65; 60; 55; 50] = pre ++ q :: post /\
        oversize img pre /\
        Image_save img "JPEG" q true true = Ok data /\
        len data <= TARGET_MAX_BYTES) \/
     (oversize img [95; 92; 90; 88; 85; 82; 80; 78; 75; 72; 70; 65; 60; 55; 50] /\
      exists k dims tmp pre q post,
        (1 <= k <= 5)%nat /\
        (forall j, (1 <= j < k)%nat -> round_over_budget img width height j) /\
        spec_round_dims width height k = Ok dims /\
        Image_resize img dims LANCZOS = Ok tmp /\
        [80; 75; 70; 65; 60; 55] = pre ++ q :: post /\
        oversize tmp pre /\
        Image_save tmp "JPEG" q true true = Ok data /\
        len data <= TARGET_MAX_BYTES)).
Proof.
  intros H. apply fit_run in H.
  destruct H as [[e [_ He]] | [t0 [img [Hl H]]]]; [discriminate |].
  exists t0, img. split; [exact Hl |].
  destruct H as [[t1 [r1 [Hq [-> Hr]]]] | [Hall [t2 [r2 [Hs [-> Hr]]]]]].
  - left. destruct r1 as [[d |] | e]; try contradiction; try discriminate.
    injection Hr as ->. apply quality_loop_run in Hq.
    destruct Hq as [pre [q [post [Hqs [Hpre [Hs [Hfit _]]]]]]].
    exists pre, q, post. auto.
  - right. split; [exact Hall |].
    destruct r2 as [[d |] | e]; try discriminate. injection Hr as ->.
    apply spec_rounds_run in Hs.
    destruct Hs as [j [t1 [t3 [Hj [Hpre [_ [_ [_ [Hlt Hk]]]]]]]]].
    apply spec_round_hit_inv in Hk.
    destruct Hk as [dims [tmp [pre [q [post [Hd [Hr [Hqs [Hp [Hs [Hfit _]]]]]]]]]]].
    exists (1 + j)%nat, dims, tmp, pre, q, post.
    repeat split; auto; try lia.
Qed.

(** X2. A fit that fails fails for one of three reasons, and the fitter
    swallows no exception: every one of the 45 encodes was over the budget
    and the error is the [RuntimeError] of line 70; or the last call made
    raised the exception; or the float arithmetic of a round raised it. *)
Theorem fit_error_origin img_bytes width height t e :
  convert_and_compress_to_jpeg img_bytes width height = (t, Err e) ->
  (e = RuntimeError "Could not compress image under the size limit." /\
   count_saves t = 45%nat /\
   exists t0 img,
     load_rgb img_bytes width height = (t0, Ok img) /\
     oversize img [95; 92; 90; 88; 85; 82; 80; 78; 75; 72; 70; 65; 60; 55; 50] /\
     forall k, (1 <= k <= 5)%nat -> round_over_budget img width height k) \/
  (t <> [] /\ raised_by (last t (EvOpen [])) e) \/
  (exists k, (1 <= k <= 5)%nat /\ spec_round_dims width height k = Err e).
Proof.
  intros H. apply fit_run in H.
  destruct H as [[e' [Hl He]] | [t0 [img [Hl H]]]].
  { injection He as <-. right. left. now apply load_rgb_error in Hl. }
  destruct H as [[t1 [r1 [Hq [-> Hr]]]] | [Hall [t2 [r2 [Hs [-> Hr]]]]]].
  - destruct r1 as [[d |] | e']; try contradiction; try discriminate.
    injection Hr as <-. apply quality_loop_run in Hq.
    destruct Hq as [pre [q [post [_ [_ [Hs ->]]]]]].
    right. left. split.
    + intros E. apply app_eq_nil in E. destruct E as [_ E].
      apply map_eq_nil in E. destruct pre; discriminate.
    + rewrite last_app_nonempty, last_saves; [exact Hs |].
      intros E. apply map_eq_nil in E. destruct pre; discriminate.
  - apply spec_rounds_run in Hs.
    destruct Hs as [j [t1 [t3 [Hj [Hpre [-> [Hs1 [Hr1 Hres]]]]]]]].
    destruct r2 as [[d |] | e']; try discriminate; injection Hr as <-.
    + destruct Hres as [-> ->]. left. split; [reflexivity |]. split.
      * apply load_rgb_inv in Hl. destruct Hl as [Hs0 _].
        rewrite !count_saves_app, count_saves_saves, Hs0, Hs1. reflexivity.
      * exists t0, img. repeat split; auto. intros k Hk. apply Hpre. lia.
    + destruct Hres as [Hlt Hk]. apply spec_round_error in Hk.
      destruct Hk as [[_ Hd] | [Hne Hraised]].
      * right. right. exists (1 + j)%nat. split; [lia | exact Hd].
      * right. left. split.
        -- intros E. apply app_eq_nil in E. destruct E as [_ E].
           apply app_eq_nil in E. destruct E as [_ E].
           apply app_eq_nil in E. destruct E as [_ E]. contradiction.
        -- rewrite !last_app_nonempty; auto.
           ++ intros E. apply app_eq_nil in E. tauto.
           ++ intros E. apply app_eq_nil in E. destruct E as [_ E].
              apply app_eq_nil in E. tauto.
Qed.

(** X5. The rounds compose: with the long ladder over the budget at every
    level and the rounds before round k over the budget at every level, a
    first fitting level [q] in round k is what the fitter returns, after k
    resizes of the full-resolution raster and 15 + 6 (k - 1) encodes plus
    those of round k down to [q]. *)
Theorem fit_round_hit img_bytes width height t0 img k dims tmp pre q post data :
  load_rgb img_bytes width height = (t0, Ok img) ->
  oversize img [95; 92; 90; 88; 85; 82; 80; 78; 75; 72; 70; 65; 60; 55; 50] ->
  (1 <= k <= 5)%nat ->
  (forall j, (1 <= j < k)%nat -> round_over_budget img width height j) ->
  spec_round_dims width height k = Ok dims ->
  Image_resize img dims LANCZOS = Ok tmp ->
  [80; 75; 70; 65; 60; 55] = pre ++ q :: post ->
  oversize tmp pre ->
  Image_save tmp "JPEG" q true true = Ok data ->
  len data <= TARGET_MAX_BYTES ->
  exists t,
    convert_and_compress_to_jpeg img_bytes width height = (t, Ok data) /\
    scale_rounds t = k /\
    count_saves t = (15 + 6 * (k - 1) + List.length pre + 1)%nat /\
    last t (EvOpen []) = EvSave tmp "JPEG" q true true.
Proof.
  intros Hl Hall Hk Hbefore Hd Hr Hqs Hpre Hs Hfit.
  pose proof (spec_round_first_fit _ _ _ _ _ _ _ _ _ _ Hd Hr Hqs Hpre Hs Hfit) as Hround.
  replace k with (1 + (k - 1))%nat in Hround at 1 by lia.
  assert (Hn : (k - 1 < 5)%nat) by lia.
  assert (Hb : forall j, (1 <= j < 1 + (k - 1))%nat -> round_over_budget img width height j)
    by (intros j Hj; apply Hbefore; lia).
  destruct (spec_rounds_hit (k - 1) 5 1 img width height _ data Hn Hb Hround)
    as [t1 [Ht1 [Hs1 Hr1]]].
  rewrite (fit_after_full_ladder _ _ _ _ _ Hl Hall), Ht1. cbn [fst snd].
  eexists. split; [reflexivity |].
  apply load_rgb_inv in Hl. destruct Hl as [Hs0 _].
  assert (Hk1 : count_resizes (EvResize img dims LANCZOS :: saves tmp (pre ++ [q])) = 1%nat).
  { change (EvResize img dims LANCZOS :: saves tmp (pre ++ [q]))
      with ([EvResize img dims LANCZOS] ++ saves tmp (pre ++ [q])).
    rewrite count_resizes_app, count_resizes_saves. reflexivity. }
  assert (Hk2 : count_saves (EvResize img dims LANCZOS :: saves tmp (pre ++ [q]))
                = (List.length pre + 1)%nat).
  { change (EvResize img dims LANCZOS :: saves tmp (pre ++ [q]))
      with ([EvResize img dims LANCZOS] ++ saves tmp (pre ++ [q])).
    rewrite count_saves_app, count_saves_saves, length_app. reflexivity. }
  split; [| split].
  - rewrite (scale_rounds_rounds _ _ _ _ _ Hs0), count_resizes_app, Hr1, Hk1. lia.
  - rewrite !count_saves_app, count_saves_saves, Hs0, Hs1, Hk2. cbn [List.length]. lia.
  - rewrite !last_app_nonempty; try discriminate.
    + unfold saves. rewrite map_app. cbn [map]. apply last_cons_app.
    + intros E. apply app_eq_nil in E. destruct E as [_ E]. discriminate.
Qed.

End FitterExtras.

Section FitterCalls.

Context {P : PIL}.

Lemma saves_calls width height img qs :
  (forall q, In q qs -> 50 <= q <= 95) ->
  Forall (fitter_call width height) (saves img qs).
Proof.
  intros H. unfold saves. apply Forall_forall. intros ev Hev.
  apply in_map_iff in Hev. destruct Hev as [q [<- Hq]].
  cbn. specialize (H q Hq). repeat split; lia.
Qed.

Lemma long_ladder_bounds q :
  In q [95; 92; 90; 88; 85; 82; 80; 78; 75; 72; 70; 65; 60; 55; 50] -> 50 <= q <= 95.
Proof. simpl. intuition lia. Qed.

Lemma short_ladder_bounds q : In q [80; 75; 70; 65; 60; 55] -> 50 <= q <= 95.
Proof. simpl. intuition lia. Qed.

Lemma quality_loop_calls width height img qs t r :
  (forall q, In q qs -> 50 <= q <= 95) ->
  quality_loop img qs = (t, r) -> Forall (fitter_call width height) t.
Proof.
  intros Hb H. apply quality_loop_inv in H. destruct H as [qs1 [qs2 [-> [-> _]]]].
  apply saves_calls. intros q Hq. apply Hb, in_or_app. now left.
Qed.

Lemma load_rgb_calls img_bytes width height t r :
  load_rgb img_bytes width height = (t, r) -> Forall (fitter_call width height) t.
Proof.
  unfold load_rgb. intros H.
  apply bind_inv in H. destruct H as [[e [Hc _]] | [t1 [i0 [t2 [Hc [H ->]]]]]];
    unfold open, call in Hc; injection Hc as <- _.
  { repeat constructor. }
  apply bind_inv in H. destruct H as [[e [Hc _]] | [t1 [i1 [t3 [Hc [H ->]]]]]];
    unfold convert, call in Hc; injection Hc as <- _.
  { repeat constructor. }
  destruct (size_differs (Image_size i1) width height).
  - unfold resize, call in H. injection H as <- _.
    repeat (constructor; [exact I || reflexivity |]).
    constructor; [split; [reflexivity | now left] | constructor].
  - injection H as <- _. repeat constructor.
Qed.

(** The clamp of lines 59 and 60. *)
Lemma scaled_at_least_1 n scale m : scaled n scale = Ok m -> 1 <= m.
Proof.
  unfold scaled. destruct (PyFloat.int_mul n scale) as [x | e]; [| discriminate].
  destruct (PyFloat.to_int x) as [i | e]; [| discriminate].
  intros H. injection H as <-. lia.
Qed.

Lemma spec_round_calls img width height k t r :
  spec_round img width height k = (t, r) -> Forall (fitter_call width height) t.
Proof.
  unfold spec_round. intros H.
  apply bind_inv in H. destruct H as [[e [Hd _]] | [t1 [dims [t2 [Hd [H ->]]]]]];
    unfold lift in Hd; injection Hd as <- Hd.
  { constructor. }
  assert (Hdims : 1 <= fst dims /\ 1 <= snd dims).
  { unfold spec_round_dims in Hd.
    destruct (scaled width _) as [new_w | e] eqn:Hw; [| discriminate].
    destruct (scaled height _) as [new_h | e] eqn:Hh; [| discriminate].
    injection Hd as <-. cbn. split; eapply scaled_at_least_1; eassumption. }
  apply bind_inv in H. destruct H as [[e [Hr _]] | [t1 [tmp [t3 [Hr [H ->]]]]]];
    unfold resize, call in Hr; injection Hr as <- _.
  { constructor; [split; [reflexivity | now right] | constructor]. }
  cbn [app]. constructor; [split; [reflexivity | now right] |].
  eapply quality_loop_calls; [exact short_ladder_bounds | exact H].
Qed.

Lemma spec_rounds_calls img width height ks : forall t r,
  spec_rounds img width height ks = (t, r) -> Forall (fitter_call width height) t.
Proof.
  induction ks as [| k ks IH]; intros t r H.
  - injection H as <- _. constructor.
  - cbn [spec_rounds] in H. apply bind_inv in H.
    destruct H as [[e [Hc _]] | [t1 [res [t2 [Hc [H ->]]]]]].
    + eapply spec_round_calls, Hc.
    + apply Forall_app. split; [eapply spec_round_calls, Hc |].
      destruct res as [data |]; [injection H as <- _; constructor | eapply IH, H].
Qed.

(** X3. Whatever the input and the outcome, the fitter only ever opens,
    converts to RGB, resizes with the Lanczos filter (to the target, or to
    dimensions of at least 1x1) and encodes progressive optimised JPEG at a
    quality between 50 and 95; it makes no network or client call. *)
Theorem fit_calls img_bytes width height :
  Forall (fitter_call width height)
         (fst (convert_and_compress_to_jpeg img_bytes width height)).
Proof.
  destruct (convert_and_compress_to_jpeg img_bytes width height) as [t r] eqn:H.
  cbn [fst]. apply fit_run in H.
  destruct H as [[e [Hl _]] | [t0 [img [Hl H]]]]; [eapply load_rgb_calls, Hl |].
  apply load_rgb_calls in Hl.
  destruct H as [[t1 [r1 [Hq [-> _]]]] | [_ [t2 [r2 [Hs [-> _]]]]]].
  - apply Forall_app. split; [exact Hl |].
    eapply quality_loop_calls; [exact long_ladder_bounds | exact Hq].
  - apply Forall_app. split; [exact Hl |]. apply Forall_app. split.
    + apply saves_calls, long_ladder_bounds.
    + eapply spec_rounds_calls, Hs.
Qed.

End FitterCalls.

Section RoundDims.

(** X4. For a target dimension from 0 to 4096 the rounds shrink it step by
    step and never below 1: the dimension of round k + 1 is at most that of
    round k, which is at most the target (or 1, for a target of 0). *)
Theorem round_dims_shrink n k :
  0 <= n <= 4096 -> (1 <= k < 5)%nat ->
  exists m m',
    scaled n (PyFloat.pow PyFloat.lit_0_9 k) = Ok m /\
    scaled n (PyFloat.pow PyFloat.lit_0_9 (S k)) = Ok m' /\
    1 <= m' <= m /\ m <= Z.max 1 n.
Proof.
  intros Hn Hk. exists (Z.max 1 (scaled_dim n k)), (Z.max 1 (scaled_dim n (S k))).
  rewrite !scaled_exact by lia. split; [reflexivity |]. split; [reflexivity |].
  assert (Hcases : k = 1%nat \/ k = 2%nat \/ k = 3%nat \/ k = 4%nat) by lia.
  unfold scaled_dim.
  destruct Hcases as [-> | [-> | [-> | ->]]]; cbn;
    Z.div_mod_to_equations; lia.
Qed.

End RoundDims.

(** * Further properties of [main] *)

Section MainExtras.

Context {P : PIL} {W : World}.

Lemma download_trace width height timeout_s :
  fst (download_random_picsum width height timeout_s) =
    [EvGet (picsum_url width height) timeout_s true].
Proof.
  unfold download_random_picsum, call, lift, bind. fold (picsum_url width height).
  destruct (requests_get (picsum_url width height) timeout_s true) as [resp | e];
    [| reflexivity].
  destruct (raise_for_status resp); reflexivity.
Qed.

Lemma client_call :
  (if negb (is_empty (setting "BSKY_PDS"))
   then call (EvClient (Some (setting "BSKY_PDS"))) (Client_new (Some (setting "BSKY_PDS")))
   else call (EvClient None) (Client_new None)) =
  call (A := unit) (EvClient client_base) (Client_new client_base).
Proof. unfold client_base. destruct (is_empty (setting "BSKY_PDS")); reflexivity. Qed.

(** The run from the fit on, for any fitter. *)
Lemma main_body_from_fit fitter width height t1 raw_bytes final_url :
  is_empty (setting "BSKY_HANDLE") = false ->
  is_empty (setting "BSKY_APP_PASSWORD") = false ->
  random_choice common_resolutions = Ok (width, height) ->
  download_random_picsum width height 30 = (t1, Ok (raw_bytes, final_url)) ->
  main_body fitter =
    (t1 ++ fst (jpeg_bytes <- fitter raw_bytes width height ;;
                after_fit width height final_url jpeg_bytes),
     snd (jpeg_bytes <- fitter raw_bytes width height ;;
          after_fit width height final_url jpeg_bytes)).
Proof.
  intros Hh Hp Hc Hd. unfold main_body. fold (setting "BSKY_HANDLE").
  fold (setting "BSKY_APP_PASSWORD"). fold (setting "BSKY_PDS").
  rewrite Hh, Hp, Hc. cbn [orb lift bind]. rewrite Hd. cbn [bind].
  rewrite client_call.
  transitivity
    (let (t', r) :=
       let (t', r) := (jpeg_bytes <- fitter raw_bytes width height ;;
                       after_fit width height final_url jpeg_bytes) in
       (t1 ++ t', r) in
     ([] ++ t', r)); [reflexivity |].
  destruct (jpeg_bytes <- fitter raw_bytes width height ;;
            after_fit width height final_url jpeg_bytes) as [t3 r3].
  reflexivity.
Qed.

(** The run after a fit within the hard limit: the client, the login, the
    post and the summary, stopping at the first call that raises. *)
Lemma after_fit_cases width height final_url jpeg_bytes :
  len jpeg_bytes <= MAX_BYTES ->
  after_fit width height final_url jpeg_bytes =
    let handle := setting "BSKY_HANDLE" in
    let app_password := setting "BSKY_APP_PASSWORD" in
    let text := post_text (utcnow_strftime "%Y-%m-%d") width height final_url in
    let alt := alt_text width height in
    match Client_new client_base with
    | Err e => ([EvClient client_base], Err e)
    | Ok _ =>
        match Client_login handle app_password with
        | Err e => ([EvClient client_base; EvLogin handle app_password], Err e)
        | Ok _ =>
            match Client_send_image text jpeg_bytes alt with
            | Err e =>
                ([EvClient client_base; EvLogin handle app_password;
                  EvSendImage text jpeg_bytes alt], Err e)
            | Ok _ =>
                ([EvClient client_base; EvLogin handle app_password;
                  EvSendImage text jpeg_bytes alt;
                  EvPrint (summary_line width height final_url (len jpeg_bytes))],
                 Ok tt)
            end
        end
    end.
Proof.
  intros Hlen. unfold after_fit.
  assert (Hgt : (len jpeg_bytes >? MAX_BYTES) = false).
  { rewrite Z.gtb_ltb. apply Z.ltb_ge. exact Hlen. }
  rewrite Hgt. cbv zeta. unfold call, bind.
  destruct (Client_new client_base); [| reflexivity].
  destruct (Client_login _ _); [| reflexivity].
  destruct (Client_send_image _ _ _); reflexivity.
Qed.

Lemma random_choice_catalog :
  exists width height,
    random_choice common_resolutions = Ok (width, height) /\
    In (width, height) common_resolutions.
Proof.
  unfold random_choice.
  assert (Hlt : (randbelow (List.length common_resolutions)
                 mod List.length common_resolutions
                 < List.length common_resolutions)%nat)
    by (apply Nat.mod_upper_bound; discriminate).
  destruct (nth_error common_resolutions _) as [[width height] |] eqn:Hn.
  - exists width, height. split; [reflexivity |]. eapply nth_error_In, Hn.
  - apply nth_error_None in Hn. lia.
Qed.



(** X7. The check of line 86 never rejects what the real fitter returns:
    whenever the fit succeeds, [main] goes on to create the client. *)
Theorem main_check_never_rejects width height t1 raw_bytes final_url t2 jpeg_bytes :
  is_empty (setting "BSKY_HANDLE") = false ->
  is_empty (setting "BSKY_APP_PASSWORD") = false ->
  random_choice common_resolutions = Ok (width, height) ->
  download_random_picsum width height 30 = (t1, Ok (raw_bytes, final_url)) ->
  convert_and_compress_to_jpeg raw_bytes width height = (t2, Ok jpeg_bytes) ->
  exists t3 r, main = (t1 ++ t2 ++ EvClient client_base :: t3, r).
Proof.
  intros Hh Hp Hc Hd Hf. unfold main.
  rewrite (main_body_from_fit _ _ _ _ _ _ Hh Hp Hc Hd), Hf. cbn [bind].
  assert (Hlen : len jpeg_bytes <= MAX_BYTES).
  { apply fit_ok_budget in Hf. unfold TARGET_MAX_BYTES, MAX_BYTES in *. lia. }
  rewrite (after_fit_cases _ _ _ _ Hlen). cbv zeta.
  destruct (Client_new client_base); [| eexists; eexists; reflexivity].
  destruct (Client_login _ _); [| eexists; eexists; reflexivity].
  destruct (Client_send_image _ _ _); eexists; eexists; reflexivity.
Qed.

(** X8. A download that fails, because the request raises or because the
    status is an error, makes [main] fail with that exception after its one
    request: nothing is decoded, encoded or posted. *)
Theorem main_fetch_failure fitter width height e :
  is_empty (setting "BSKY_HANDLE") = false ->
  is_empty (setting "BSKY_APP_PASSWORD") = false ->
  random_choice common_resolutions = Ok (width, height) ->
  requests_get (picsum_url width height) 30 true = Err e \/
  (exists resp, requests_get (picsum_url width height) 30 true = Ok resp /\
                raise_for_status resp = Err e) ->
  main_body fitter = ([EvGet (picsum_url width height) 30 true], Err e).
Proof.
  intros Hh Hp Hc Hget. unfold main_body. fold (setting "BSKY_HANDLE").
  fold (setting "BSKY_APP_PASSWORD"). rewrite Hh, Hp, Hc. cbn [orb lift bind].
  unfold download_random_picsum. fold (picsum_url width height).
  destruct Hget as [Hget | [resp [Hget Hst]]]; rewrite Hget; unfold call; cbn [bind].
  - reflexivity.
  - rewrite Hst. reflexivity.
Qed.

(** X9. A fit that fails makes [main] fail with the same exception right
    after the fitter's calls; the client is never created. *)
Theorem main_fit_failure fitter width height t1 raw_bytes final_url t2 e :
  is_empty (setting "BSKY_HANDLE") = false ->
  is_empty (setting "BSKY_APP_PASSWORD") = false ->
  random_choice common_resolutions = Ok (width, height) ->
  download_random_picsum width height 30 = (t1, Ok (raw_bytes, final_url)) ->
  fitter raw_bytes width height = (t2, Err e) ->
  main_body fitter = (t1 ++ t2, Err e).
Proof.
  intros Hh Hp Hc Hd Hf.
  rewrite (main_body_from_fit _ _ _ _ _ _ Hh Hp Hc Hd), Hf. reflexivity.
Qed.

(** X10. When the client cannot be created or the login is refused, [main]
    fails with that exception and nothing is posted. *)
Theorem main_login_failure fitter width height t1 raw_bytes final_url t2 jpeg_bytes t3 e :
  is_empty (setting "BSKY_HANDLE") = false ->
  is_empty (setting "BSKY_APP_PASSWORD") = false ->
  random_choice common_resolutions = Ok (width, height) ->
  download_random_picsum width height 30 = (t1, Ok (raw_bytes, final_url)) ->
  fitter raw_bytes width height = (t2, Ok jpeg_bytes) ->
  len jpeg_bytes <= MAX_BYTES ->
  (Client_new client_base = Err e /\ t3 = [EvClient client_base]) \/
  (Client_new client_base = Ok tt /\
   Client_login (setting "BSKY_HANDLE") (setting "BSKY_APP_PASSWORD") = Err e /\
   t3 = [EvClient client_base;
         EvLogin (setting "BSKY_HANDLE") (setting "BSKY_APP_PASSWORD")]) ->
  main_body fitter = (t1 ++ t2 ++ t3, Err e) /\
  filter is_send_image t3 = [].
Proof.
  intros Hh Hp Hc Hd Hf Hlen Hfail.
  rewrite (main_body_from_fit _ _ _ _ _ _ Hh Hp Hc Hd), Hf. cbn [bind].
  rewrite (after_fit_cases _ _ _ _ Hlen). cbv zeta.
  destruct Hfail as [[Hn ->] | [Hn [Hl ->]]]; rewrite Hn; [| rewrite Hl];
    split; reflexivity.
Qed.

Lemma main_body_no_credentials fitter :
  is_empty (setting "BSKY_HANDLE") || is_empty (setting "BSKY_APP_PASSWORD") = true ->
  main_body fitter =
    ([], Err (RuntimeError
                "Missing BSKY_HANDLE or BSKY_APP_PASSWORD environment variables.")).
Proof.
  intros H. unfold main_body. fold (setting "BSKY_HANDLE").
  fold (setting "BSKY_APP_PASSWORD"). rewrite H. reflexivity.
Qed.

Lemma main_body_download_error fitter width height t1 e :
  is_empty (setting "BSKY_HANDLE") = false ->
  is_empty (setting "BSKY_APP_PASSWORD") = false ->
  random_choice common_resolutions = Ok (width, height) ->
  download_random_picsum width height 30 = (t1, Err e) ->
  main_body fitter = (t1, Err e).
Proof.
  intros Hh Hp Hc Hd. unfold main_body. fold (setting "BSKY_HANDLE").
  fold (setting "BSKY_APP_PASSWORD"). rewrite Hh, Hp, Hc. cbn [orb lift bind].
  rewrite Hd. reflexivity.
Qed.



Lemma blank_lstrip s : blank (lstrip s) = blank s.
Proof.
  induction s as [| c s IH]; [reflexivity |].
  unfold blank in *. cbn [lstrip forallb]. destruct (is_space c) eqn:Hc; [exact IH |].
  cbn [forallb]. now rewrite Hc.
Qed.

Lemma is_empty_rstrip s : is_empty (rstrip s) = blank s.
Proof.
  induction s as [| c s IH]; [reflexivity |].
  unfold blank in *. cbn [rstrip forallb].
  destruct (rstrip s) as [| c' r]; cbn [is_empty] in IH; rewrite <- IH.
  - destruct (is_space c); reflexivity.
  - now rewrite andb_false_r.
Qed.

Lemma is_empty_strip s : is_empty (strip s) = blank s.
Proof. unfold strip. now rewrite is_empty_rstrip, blank_lstrip. Qed.

(** X12. [main] refuses to start, with the [RuntimeError] of line 79 and no
    call made, exactly when the handle or the app password is unset, empty
    or made of whitespace only. *)
Theorem main_refuses_blank_credentials :
  main =
    ([], Err (RuntimeError
                "Missing BSKY_HANDLE or BSKY_APP_PASSWORD environment variables."))
  <->
  blank (environ_get "BSKY_HANDLE" (str_of "")) = true \/
  blank (environ_get "BSKY_APP_PASSWORD" (str_of "")) = true.
Proof.
  rewrite <- !is_empty_strip. fold (setting "BSKY_HANDLE").
  fold (setting "BSKY_APP_PASSWORD"). rewrite <- orb_true_iff. split.
  - intros H.
    destruct (is_empty (setting "BSKY_HANDLE") || is_empty (setting "BSKY_APP_PASSWORD"))
      eqn:Hcred; [reflexivity | exfalso].
    apply orb_false_elim in Hcred. destruct Hcred as [Hh Hp].
    destruct random_choice_catalog as [width [height [Hc _]]].
    pose proof (download_trace width height 30) as Ht1.
    destruct (download_random_picsum width height 30) as [t1 [[raw_bytes final_url] | e]]
      eqn:Hd; cbn [fst] in Ht1; subst t1; unfold main in H.
    + rewrite (main_body_from_fit _ _ _ _ _ _ Hh Hp Hc Hd) in H. discriminate H.
    + rewrite (main_body_download_error _ _ _ _ _ Hh Hp Hc Hd) in H. discriminate H.
  - intros H. unfold main. now apply main_body_no_credentials.
Qed.

End MainExtras.

(** * The further properties on the small codec *)

(** X1 on the noisy image at 1024x768, which fits in round 1 at quality 55. *)
Lemma fit_returns_first_fitting_witness :
  exists t0 img,
    load_rgb (P := Toy.pil) Toy.noisy 1024 768 = (t0, Ok img) /\
    ((exists pre q post,
        [95; 92; 90; 88; 85; 82; 80; 78; 75; 72; 70; 65; 60; 55; 50] = pre ++ q :: post /\
        oversize img pre /\
        Image_save img "JPEG" q true true = Ok (Toy.encode (Toy.noisy_at 921 691) 55) /\
        len (Toy.encode (Toy.noisy_at 921 691) 55) <= TARGET_MAX_BYTES) \/
     (oversize img [95; 92; 90; 88; 85; 82; 80; 78; 75; 72; 70; 65; 60; 55; 50] /\
      exists k dims tmp pre q post,
        (1 <= k <= 5)%nat /\
        (forall j, (1 <= j < k)%nat -> round_over_budget img 1024 768 j) /\
        spec_round_dims 1024 768 k = Ok dims /\
        Image_resize img dims LANCZOS = Ok tmp /\
        [80; 75; 70; 65; 60; 55] = pre ++ q :: post /\
        oversize tmp pre /\
        Image_save tmp "JPEG" q true true = Ok (Toy.encode (Toy.noisy_at 921 691) 55) /\
        len (Toy.encode (Toy.noisy_at 921 691) 55) <= TARGET_MAX_BYTES)).
Proof.
  exact (fit_returns_first_fitting (P := Toy.pil) Toy.noisy 1024 768 _ _ toy_noisy_run).
Defined.

(** X2 on the empty byte string: the open raises. *)
Lemma fit_error_origin_witness :
  let e := LibraryError "UnidentifiedImageError" "cannot identify image file" in
  let t := [EvOpen (P := Toy.pil) []] in
  convert_and_compress_to_jpeg (P := Toy.pil) [] 800 600 = (t, Err e) /\
  ((e = RuntimeError "Could not compress image under the size limit." /\
    count_saves t = 45%nat /\
    exists t0 img,
      load_rgb (P := Toy.pil) [] 800 600 = (t0, Ok img) /\
      oversize img [95; 92; 90; 88; 85; 82; 80; 78; 75; 72; 70; 65; 60; 55; 50] /\
      forall k, (1 <= k <= 5)%nat -> round_over_budget img 800 600 k) \/
   (t <> [] /\ raised_by (last t (EvOpen [])) e) \/
   (exists k, (1 <= k <= 5)%nat /\ spec_round_dims 800 600 k = Err e)).
Proof.
  intros e t. split; [reflexivity |].
  exact (fit_error_origin (P := Toy.pil) [] 800 600 t e eq_refl).
Defined.

(** X4 at 1024 pixels, between rounds 1 and 2. *)
Lemma round_dims_shrink_witness :
  exists m m',
    scaled 1024 (PyFloat.pow PyFloat.lit_0_9 1) = Ok m /\
    scaled 1024 (PyFloat.pow PyFloat.lit_0_9 2) = Ok m' /\
    1 <= m' <= m /\ m <= Z.max 1 1024.
Proof. apply (round_dims_shrink 1024 1); lia. Defined.

(** X5 on the noisier image at 1024x768: round 1 is over the budget at all
    six levels and round 2, at 829x622, fits at quality 60. *)
Lemma fit_round_hit_witness :
  exists t,
    convert_and_compress_to_jpeg (P := Toy.pil) toy_noisier 1024 768 =
      (t, Ok (Toy.encode (toy_raster 829 622 30) 60)) /\
    scale_rounds t = 2%nat /\
    count_saves t = (15 + 6 * (2 - 1) + List.length [80; 75; 70; 65] + 1)%nat /\
    last t (EvOpen []) = EvSave (P := Toy.pil) (toy_raster 829 622 30) "JPEG" 60 true true.
Proof.
  apply (fit_round_hit (P := Toy.pil) toy_noisier 1024 768
           (fst (load_rgb (P := Toy.pil) toy_noisier 1024 768)) (toy_raster 1024 768 30)
           2 (829, 622) (toy_raster 829 622 30) [80; 75; 70; 65] 60 [55]).
  - reflexivity.
  - apply toy_oversize; [reflexivity | vm_compute; reflexivity].
  - lia.
  - intros j Hj. assert (j = 1%nat) as -> by lia.
    exists (921, 691), (toy_raster 921 691 30).
    split; [vm_compute; reflexivity | split; [reflexivity |]].
    apply toy_oversize; [reflexivity | vm_compute; reflexivity].
  - vm_compute. reflexivity.
  - reflexivity.
  - reflexivity.
  - apply toy_oversize; [reflexivity | vm_compute; reflexivity].
  - reflexivity.
  - apply toy_fits. vm_compute. reflexivity.
Defined.


(** X7 in the small world. *)
Lemma main_check_never_rejects_witness :
  exists t3 r,
    main (P := Toy.pil) (W := Toy.world Toy.env_full) =
      ([EvGet "https://picsum.photos/1024/768" 30 true]
         ++ fst (convert_and_compress_to_jpeg (P := Toy.pil) Toy.plain 1024 768)
         ++ EvClient None :: t3, r).
Proof.
  apply (main_check_never_rejects (P := Toy.pil) (W := Toy.world Toy.env_full)
           1024 768 [EvGet "https://picsum.photos/1024/768" 30 true] Toy.plain
           "https://fastly.picsum.photos/id/10/1024/768.jpg"
           (fst (convert_and_compress_to_jpeg (P := Toy.pil) Toy.plain 1024 768))
           [xff; xd8]); reflexivity.
Defined.

(** X8 with a photo service that answers 503. *)
Lemma main_fetch_failure_witness :
  main_body (P := Toy.pil)
    (W := toy_world_with Toy.env_full
            (Ok (toy_response (Err (LibraryError "HTTPError" "503 Server Error")) []))
            (Ok tt))
    convert_and_compress_to_jpeg =
    ([EvGet "https://picsum.photos/1024/768" 30 true],
     Err (LibraryError "HTTPError" "503 Server Error")).
Proof.
  apply (main_fetch_failure (P := Toy.pil)
           (W := toy_world_with Toy.env_full
                   (Ok (toy_response (Err (LibraryError "HTTPError" "503 Server Error")) []))
                   (Ok tt))
           convert_and_compress_to_jpeg 1024 768); try reflexivity.
  right. eexists. split; reflexivity.
Defined.

(** X9 with a photo service that answers an empty body. *)
Lemma main_fit_failure_witness :
  main_body (P := Toy.pil)
    (W := toy_world_with Toy.env_full (Ok (toy_response (Ok tt) [])) (Ok tt))
    convert_and_compress_to_jpeg =
    ([EvGet "https://picsum.photos/1024/768" 30 true] ++ [EvOpen []],
     Err (LibraryError "UnidentifiedImageError" "cannot identify image file")).
Proof.
  apply (main_fit_failure (P := Toy.pil)
           (W := toy_world_with Toy.env_full (Ok (toy_response (Ok tt) [])) (Ok tt))
           convert_and_compress_to_jpeg 1024 768
           [EvGet "https://picsum.photos/1024/768" 30 true] []
           "https://fastly.picsum.photos/id/10/1024/768.jpg"); reflexivity.
Defined.

(** X10 with a login that is refused. *)
Lemma main_login_failure_witness :
  let W := toy_world_with Toy.env_full (Ok (toy_response (Ok tt) Toy.plain))
             (Err (LibraryError "UnauthorizedError" "Invalid identifier or password")) in
  main_body (P := Toy.pil) (W := W) convert_and_compress_to_jpeg =
    ([EvGet "https://picsum.photos/1024/768" 30 true]
       ++ fst (convert_and_compress_to_jpeg (P := Toy.pil) Toy.plain 1024 768)
       ++ [EvClient None; EvLogin (str_of "bot.example.org") (str_of "abcd-efgh")],
     Err (LibraryError "UnauthorizedError" "Invalid identifier or password")) /\
  filter (is_send_image (P := Toy.pil))
    [EvClient None; EvLogin (str_of "bot.example.org") (str_of "abcd-efgh")] = [].
Proof.
  intros W.
  apply (main_login_failure (P := Toy.pil) (W := W)
           convert_and_compress_to_jpeg 1024 768
           [EvGet "https://picsum.photos/1024/768" 30 true] Toy.plain
           "https://fastly.picsum.photos/id/10/1024/768.jpg"
           (fst (convert_and_compress_to_jpeg (P := Toy.pil) Toy.plain 1024 768))
           [xff; xd8]); try reflexivity.
  - vm_compute. discriminate.
  - right. repeat split; reflexivity.
Defined.


(** X12 with a handle of two spaces. *)
Lemma main_refuses_blank_credentials_witness :
  let W := toy_world_with toy_env_blank (Ok (toy_response (Ok tt) Toy.plain)) (Ok tt) in
  blank (environ_get (W := W) "BSKY_HANDLE" (str_of "")) = true /\
  main (P := Toy.pil) (W := W) =
    ([], Err (RuntimeError
                "Missing BSKY_HANDLE or BSKY_APP_PASSWORD environment variables.")).
Proof.
  intros W. split; [reflexivity |].
  apply (proj2 (main_refuses_blank_credentials (P := Toy.pil) (W := W))).
  left. reflexivity.
Defined.

(** * The scale-down fallback through the fitter *)

Section Fallback.

Context {P : PIL}.

Lemma size_differs_true sz width height :
  size_differs sz width height = true -> sz <> (width, height).
Proof.
  unfold size_differs. intros H ->. cbn in H. rewrite !Z.eqb_refl in H. discriminate H.
Qed.

(** What a successful load did: the raster handed over is the image
    converted to RGB, resized to the target when its size differed. *)
Lemma load_rgb_ok_inv img_bytes width height t0 img :
  load_rgb img_bytes width height = (t0, Ok img) ->
  exists opened rgb,
    Image_open img_bytes = Ok opened /\
    Image_convert opened "RGB" = Ok rgb /\
    ((Image_size rgb = (width, height) /\ img = rgb /\
      t0 = [EvOpen img_bytes; EvConvert opened "RGB"]) \/
     (Image_size rgb <> (width, height) /\
      Image_resize rgb (width, height) LANCZOS = Ok img /\
      t0 = [EvOpen img_bytes; EvConvert opened "RGB";
            EvResize rgb (width, height) LANCZOS])).
Proof.
  unfold load_rgb. intros H.
  apply bind_inv in H. destruct H as [[e [_ He]] | [t1 [opened [t2 [Ho [H ->]]]]]];
    [discriminate |].
  unfold open, call in Ho. injection Ho as <- Ho.
  apply bind_inv in H. destruct H as [[e [_ He]] | [t1 [rgb [t3 [Hc [H ->]]]]]];
    [discriminate |].
  unfold convert, call in Hc. injection Hc as <- Hc.
  exists opened, rgb. split; [exact Ho |]. split; [exact Hc |].
  destruct (size_differs (Image_size rgb) width height) eqn:Hsz.
  - right. unfold resize, call in H. injection H as <- Hr.
    apply size_differs_true in Hsz. auto.
  - left. injection H as <- <-. apply size_differs_false in Hsz. auto.
Qed.

(** Rounds that run to their end up to round a + j, and a hit there, with
    the calls made. *)
Lemma spec_rounds_hit_trace j : forall n a img width height dims tmps tk data,
  (j < n)%nat ->
  (forall k, (a <= k < a + j)%nat ->
     spec_round_dims width height k = Ok (dims k) /\
     Image_resize img (dims k) LANCZOS = Ok (tmps k) /\
     oversize (tmps k) [80; 75; 70; 65; 60; 55]) ->
  spec_round img width height (a + j) = (tk, Ok (Some data)) ->
  spec_rounds img width height (seq a n) =
    (flat_map (fun k => EvResize img (dims k) LANCZOS
                        :: saves (tmps k) [80; 75; 70; 65; 60; 55])
              (seq a j) ++ tk,
     Ok (Some data)).
Proof.
  induction j as [| j IH]; intros n a img width height dims tmps tk data Hn Hpre Hk;
    (destruct n as [| n]; [lia |]);
    change (seq a (S n)) with (a :: seq (S a) n); cbn [spec_rounds].
  - rewrite Nat.add_0_r in Hk. rewrite (bind_ok _ _ _ _ Hk).
    cbn [ret fst snd seq flat_map app]. now rewrite app_nil_r.
  - destruct (Hpre a ltac:(lia)) as [Hd [Hr Hall]].
    rewrite (bind_ok _ _ _ _ (spec_round_none _ _ _ _ _ _ Hd Hr Hall)).
    rewrite (IH n (S a) img width height dims tmps tk data).
    + cbn [fst snd]. change (seq a (S j)) with (a :: seq (S a) j).
      cbn [flat_map]. now rewrite <- !app_assoc.
    + lia.
    + intros k Hk'. apply Hpre. lia.
    + replace (S a + j)%nat with (a + S j)%nat by lia. exact Hk.
Qed.

Lemma count_resizes_after_first_save (t : list event) :
  (count_resizes (after_first_save t) <= count_resizes t)%nat.
Proof.
  unfold count_resizes. induction t as [| ev t IH]; [reflexivity |].
  cbn [after_first_save filter]. destruct (is_save ev).
  - destruct (is_resize ev); cbn [List.length]; lia.
  - destruct (is_resize ev); cbn [List.length]; lia.
Qed.

(** No run enters more than five rounds. *)
Lemma scale_rounds_at_most_5 img_bytes width height :
  (scale_rounds (fst (convert_and_compress_to_jpeg img_bytes width height)) <= 5)%nat.
Proof.
  destruct (fit_trace img_bytes width height)
    as [t0 [t1 [t2 [-> [Hs0 [_ [_ [Hr1 [Hr2 _]]]]]]]]].
  unfold scale_rounds. rewrite (after_first_save_skip _ _ Hs0).
  pose proof (count_resizes_after_first_save (t1 ++ t2)) as H.
  rewrite count_resizes_app in H. lia.
Qed.

(** C3. The fallback of lines 56-68, read on a run of the fitter.  The
    raster [img] the load hands over is the decoded image converted to RGB
    and, when its size differed, resized to the target.  With the long
    ladder over the budget, round k (k from 1 to 5) resizes that same
    raster [img], not the raster of the round before, to the dimensions
    computed from the original width and height with the scale 0.9^k (for
    dimensions up to 4096: floor(n * 0.9^k), at least 1), and walks the
    ladder 80, 75, 70, 65, 60, 55 from the top.  When the rounds before
    round k were over the budget at all six levels and [q] is the first
    level of round k within the budget, the fitter returns that encoding,
    and its calls are exactly: the load, the fifteen encodes, the seven
    calls of each earlier round, the resize of round k and the encodes
    down to [q].  No run enters more than five rounds. *)
Theorem scale_down_fallback img_bytes width height t0 img k tmps tmp pre q post data :
  load_rgb img_bytes width height = (t0, Ok img) ->
  oversize img [95; 92; 90; 88; 85; 82; 80; 78; 75; 72; 70; 65; 60; 55; 50] ->
  (1 <= k <= 5)%nat -> 0 <= width <= 4096 -> 0 <= height <= 4096 ->
  (forall j, (1 <= j < k)%nat ->
     Image_resize img (round_dims width height j) LANCZOS = Ok (tmps j) /\
     oversize (tmps j) [80; 75; 70; 65; 60; 55]) ->
  Image_resize img (round_dims width height k) LANCZOS = Ok tmp ->
  [80; 75; 70; 65; 60; 55] = pre ++ q :: post ->
  oversize tmp pre ->
  Image_save tmp "JPEG" q true true = Ok data ->
  len data <= TARGET_MAX_BYTES ->
  (exists opened rgb,
     Image_open img_bytes = Ok opened /\
     Image_convert opened "RGB" = Ok rgb /\
     ((Image_size rgb = (width, height) /\ img = rgb /\
       t0 = [EvOpen img_bytes; EvConvert opened "RGB"]) \/
      (Image_size rgb <> (width, height) /\
       Image_resize rgb (width, height) LANCZOS = Ok img /\
       t0 = [EvOpen img_bytes; EvConvert opened "RGB";
             EvResize rgb (width, height) LANCZOS]))) /\
  convert_and_compress_to_jpeg img_bytes width height =
    (t0 ++ saves img [95; 92; 90; 88; 85; 82; 80; 78; 75; 72; 70; 65; 60; 55; 50]
        ++ full_rounds img width height tmps (k - 1)
        ++ EvResize img (round_dims width height k) LANCZOS :: saves tmp (pre ++ [q]),
     Ok data) /\
  (forall b w h,
     (scale_rounds (fst (convert_and_compress_to_jpeg b w h)) <= 5)%nat).
Proof.
  intros Hl Hall Hk Hw Hh Hbefore Hr Hqs Hpre Hs Hfit.
  split; [exact (load_rgb_ok_inv _ _ _ _ _ Hl) |].
  split; [| exact scale_rounds_at_most_5].
  assert (Hdims : forall j, (1 <= j <= 5)%nat ->
            spec_round_dims width height j = Ok (round_dims width height j)).
  { intros j Hj. unfold spec_round_dims, round_dims. now rewrite !scaled_exact. }
  pose proof (spec_round_first_fit _ _ _ _ _ _ _ _ _ _ (Hdims k Hk) Hr Hqs Hpre Hs Hfit)
    as Hround.
  replace k with (1 + (k - 1))%nat in Hround at 1 by lia.
  rewrite (fit_after_full_ladder _ _ _ _ _ Hl Hall).
  assert (Hn : (k - 1 < 5)%nat) by lia.
  assert (Hb : forall j, (1 <= j < 1 + (k - 1))%nat ->
            spec_round_dims width height j = Ok (round_dims width height j) /\
            Image_resize img (round_dims width height j) LANCZOS = Ok (tmps j) /\
            oversize (tmps j) [80; 75; 70; 65; 60; 55])
    by (intros j Hj; split; [apply Hdims; lia | apply Hbefore; lia]).
  rewrite (spec_rounds_hit_trace (k - 1) 5 1 img width height
             (round_dims width height) tmps _ data Hn Hb Hround).
  reflexivity.
Qed.

End Fallback.

(** C3 on the noisier image at 1024x768: round 1, at 921x691, is over the
    budget at all six levels, and round 2, at 829x622 and again from the
    1024x768 raster, fits at quality 60. *)
Lemma scale_down_fallback_witness :
  let img : @Image Toy.pil := toy_raster 1024 768 30 in
  let tmps : nat -> @Image Toy.pil := fun _ => toy_raster 921 691 30 in
  let tmp : @Image Toy.pil := toy_raster 829 622 30 in
  let opened : @Image Toy.pil :=
    {| Toy.size := (16, 16); Toy.mode := "RGBA"; Toy.detail := 30 |} in
  let rgb : @Image Toy.pil :=
    {| Toy.size := (16, 16); Toy.mode := "RGB"; Toy.detail := 30 |} in
  let t0 := [EvOpen toy_noisier; EvConvert opened "RGB";
             EvResize rgb (1024, 768) LANCZOS] in
  round_dims 1024 768 1 = (921, 691) /\ round_dims 1024 768 2 = (829, 622) /\
  (exists opened rgb,
     Image_open (PIL := Toy.pil) toy_noisier = Ok opened /\
     Image_convert opened "RGB" = Ok rgb /\
     ((Image_size rgb = (1024, 768) /\ img = rgb /\
       t0 = [EvOpen toy_noisier; EvConvert opened "RGB"]) \/
      (Image_size rgb <> (1024, 768) /\
       Image_resize rgb (1024, 768) LANCZOS = Ok img /\
       t0 = [EvOpen toy_noisier; EvConvert opened "RGB";
             EvResize rgb (1024, 768) LANCZOS]))) /\
  convert_and_compress_to_jpeg (P := Toy.pil) toy_noisier 1024 768 =
    (t0 ++ saves img [95; 92; 90; 88; 85; 82; 80; 78; 75; 72; 70; 65; 60; 55; 50]
        ++ full_rounds img 1024 768 tmps (2 - 1)
        ++ EvResize img (round_dims 1024 768 2) LANCZOS
           :: saves tmp ([80; 75; 70; 65] ++ [60]),
     Ok (Toy.encode tmp 60)) /\
  (forall b w h,
     (scale_rounds (fst (convert_and_compress_to_jpeg (P := Toy.pil) b w h)) <= 5)%nat).
Proof.
  intros img tmps tmp opened rgb t0.
  split; [vm_compute; reflexivity |]. split; [vm_compute; reflexivity |].
  apply (scale_down_fallback (P := Toy.pil) toy_noisier 1024 768 t0 img 2 tmps tmp
           [80; 75; 70; 65] 60 [55] (Toy.encode tmp 60)).
  - reflexivity.
  - apply toy_oversize; [reflexivity | vm_compute; reflexivity].
  - lia.
  - lia.
  - lia.
  - intros j Hj. assert (j = 1%nat) as -> by lia.
    split; [reflexivity |].
    apply toy_oversize; [reflexivity | vm_compute; reflexivity].
  - reflexivity.
  - reflexivity.
  - apply toy_oversize; [reflexivity | vm_compute; reflexivity].
  - reflexivity.
  - apply toy_fits. vm_compute. reflexivity.
Defined.

(** * A decoder that accepts an invalid file *)

(** The small decoder refuses every file that is not four bytes, and the
    fitter then fails at the open. *)
Lemma toy_rejects_invalid : rejects_invalid Toy.pil toy_valid.
Proof.
  intros b width height Hv.
  assert (Ho : Image_open (PIL := Toy.pil) b =
               Err (LibraryError "UnidentifiedImageError" "cannot identify image file")).
  { destruct b as [| m [| d [| w [| h [| x l]]]]]; try reflexivity. discriminate Hv. }
  exists [EvOpen b], (LibraryError "UnidentifiedImageError" "cannot identify image file").
  unfold convert_and_compress_to_jpeg, load_rgb, open, call. rewrite Ho.
  repeat split.
Qed.

(** C7 as worded fails: the fitter validates nothing itself.  With a decoder
    that accepts a three-byte file, which the format does not call valid,
    the fit of that file succeeds with an open, a conversion and one encode. *)
Lemma lenient_decoder_counterexample :
  toy_valid [x01; x00; x08] = false /\
  convert_and_compress_to_jpeg (P := lenient_pil) [x01; x00; x08] 8 8 =
    ([EvOpen [x01; x00; x08];
      EvConvert (P := lenient_pil) (toy_raster 8 8 0) "RGB";
      EvSave (P := lenient_pil) (toy_raster 8 8 0) "JPEG" 95 true true],
     Ok [xff; xd8]) /\
  ~ rejects_invalid lenient_pil toy_valid.
Proof.
  assert (Hrun : convert_and_compress_to_jpeg (P := lenient_pil) [x01; x00; x08] 8 8 =
    ([EvOpen [x01; x00; x08];
      EvConvert (P := lenient_pil) (toy_raster 8 8 0) "RGB";
      EvSave (P := lenient_pil) (toy_raster 8 8 0) "JPEG" 95 true true],
     Ok [xff; xd8])) by reflexivity.
  split; [reflexivity |]. split; [exact Hrun |].
  intros H. destruct (H [x01; x00; x08] 8 8 eq_refl) as [t [e [He _]]].
  rewrite Hrun in He. discriminate He.
Qed.
